(** * Learning-rate decay schedules of [paddle.v2.fluid]

    A shallow embedding of [python/paddle/v2/fluid/learning_rate_decay.py].

    The decay functions are graph builders: every Python operator applied to
    a [Variable] appends an operator to the program under construction and
    returns the fresh output variable.  The embedding keeps that shape: the
    builders run in a state-and-exception monad over the program, and an
    executor gives the emitted operators their meaning on a scope.

    Numbers are idealised: a float32 tensor of shape [1] and a Python float
    are both a real number, so rounding, infinities and NaN are out of the
    model. *)

From Stdlib Require Import Reals Lra Lia List String ZArith Bool Arith.
Import ListNotations.

Local Open Scope string_scope.
Local Open Scope list_scope.
Local Open Scope R_scope.

(** ** The framework the module is written against *)

Module Framework.

(** Modelled from the spec: the graph-variable type of the framework
    ([framework.Variable]), which is imported but not part of the sources.
    A variable is known by its name; [Tmp n] is the [n]-th name handed out by
    the framework's unique-name generator, [Named s] a name chosen by the
    caller. *)
Inductive varname : Type :=
| Named (s : string)
| Tmp (n : nat).

Definition varname_eqb (a b : varname) : bool :=
  match a, b with
  | Named s, Named t => String.eqb s t
  | Tmp n, Tmp m => Nat.eqb n m
  | _, _ => false
  end.

(** What a Python argument of the decay functions can be: a number (int or
    float, read as a real), a graph [Variable], or anything else. *)
Inductive pyobj : Type :=
| PyNone
| PyNum (r : R)
| PyVariable (v : varname).

Definition isinstance_Variable (o : pyobj) : bool :=
  match o with
  | PyVariable _ => true
  | _ => false
  end.

(** Python's [float(x)] on a number. *)
Definition float (x : R) : R := x.

Inductive exn : Type :=
| ValueError (msg : string)
| TypeError
| IndexError.

(** *** Operators of the graph *)

Inductive binop : Type :=
| elementwise_add | elementwise_sub | elementwise_mul
| elementwise_div | elementwise_pow | elementwise_min.

Inductive unop : Type := op_floor | op_ceil | op_exp.

Inductive cmpop : Type := less_than | equal.

Inductive op : Type :=
| FillConstant (out : varname) (value : R) (force_cpu : bool)
| Elementwise (k : binop) (x y out : varname)
| Activation (k : unop) (x out : varname)
| Compare (k : cmpop) (x y out : varname)
| Assign (input output : varname).

(** A statement of the global block: a plain operator, or a [Switch] with
    the sub-block of each case and of the default. *)
Inductive stmt : Type :=
| Op (o : op)
| SwitchOp (cases : list (varname * list op)) (default : option (list op)).

(** A variable declared by [create_global_var], with the constant the
    start-up program fills it with. *)
Record global_var : Type := GlobalVar {
  gv_name : varname;
  gv_value : R;
  gv_persistable : bool
}.

Record switch_obj : Type := SwitchObj {
  sw_cases : list (varname * list op);
  sw_default : option (list op)
}.

(** The state the builders work on. *)
Record program : Type := Program {
  global_block : list stmt;
  unique_name : nat;
  startup : list global_var;
  force_init_on_cpu : bool;
  sub_block : option (list op);
  open_switch : option switch_obj
}.

Definition empty_program : program :=
  Program [] 0 [] false None None.

Definition set_global_block (b : list stmt) (p : program) : program :=
  Program b (unique_name p) (startup p) (force_init_on_cpu p)
          (sub_block p) (open_switch p).

Definition set_unique_name (n : nat) (p : program) : program :=
  Program (global_block p) n (startup p) (force_init_on_cpu p)
          (sub_block p) (open_switch p).

Definition set_startup (g : list global_var) (p : program) : program :=
  Program (global_block p) (unique_name p) g (force_init_on_cpu p)
          (sub_block p) (open_switch p).

Definition set_force_init_on_cpu (f : bool) (p : program) : program :=
  Program (global_block p) (unique_name p) (startup p) f
          (sub_block p) (open_switch p).

Definition set_sub_block (b : option (list op)) (p : program) : program :=
  Program (global_block p) (unique_name p) (startup p) (force_init_on_cpu p)
          b (open_switch p).

Definition set_open_switch (s : option switch_obj) (p : program) : program :=
  Program (global_block p) (unique_name p) (startup p) (force_init_on_cpu p)
          (sub_block p) s.

(** *** The builder monad: program state and Python exceptions *)

Inductive result (A : Type) : Type :=
| Ok (a : A) (p : program)
| Raise (e : exn).

Arguments Ok {A} a p.
Arguments Raise {A} e.

Definition M (A : Type) : Type := program -> result A.

Definition ret {A : Type} (a : A) : M A := fun p => Ok a p.

Definition bind {A B : Type} (m : M A) (k : A -> M B) : M B :=
  fun p => match m p with
           | Ok a p' => k a p'
           | Raise e => Raise e
           end.

Definition raise {A : Type} (e : exn) : M A := fun _ => Raise e.

Definition get : M program := fun p => Ok p p.

Definition modify (f : program -> program) : M unit := fun p => Ok tt (f p).

Declare Scope builder_scope.
Delimit Scope builder_scope with builder.
Notation "x <- m ;; k" := (bind m (fun x => k))
  (at level 61, m at next level, right associativity) : builder_scope.
Notation "m ;; k" := (bind m (fun _ => k))
  (at level 61, right associativity) : builder_scope.
Local Open Scope builder_scope.

(** *** [layers]: the operators the decay functions call *)

(** Modelled from the spec: the framework's unique-name generator, which
    names the output of every operator a layer appends. *)
Definition new_tmp : M varname :=
  p <- get ;;
  modify (set_unique_name (S (unique_name p))) ;;
  ret (Tmp (unique_name p)).

(** An operator goes to the sub-block of the case being filled, when there
    is one, and to the global block otherwise. *)
Definition append_op (o : op) : M unit :=
  modify (fun p =>
            match sub_block p with
            | Some b => set_sub_block (Some (b ++ [o])) p
            | None => set_global_block (global_block p ++ [Op o]) p
            end).

(** Modelled from the spec: [layers.fill_constant(shape=[1],
    dtype='float32', value)], which is called and not part of the sources: a
    fresh variable and the operator that fills it. *)
Definition fill_constant (value : R) : M pyobj :=
  out <- new_tmp ;;
  p <- get ;;
  append_op (FillConstant out value (force_init_on_cpu p)) ;;
  ret (PyVariable out).

(** A Python number met by an operator of a [Variable] becomes a constant
    tensor. *)
Definition as_variable (o : pyobj) : M varname :=
  match o with
  | PyVariable v => ret v
  | PyNum r =>
      c <- fill_constant r ;;
      match c with
      | PyVariable v => ret v
      | _ => raise TypeError
      end
  | PyNone => raise TypeError
  end.

Definition expect_variable (o : pyobj) : M varname :=
  match o with
  | PyVariable v => ret v
  | _ => raise TypeError
  end.

(** Modelled from the spec: the arithmetic operators of [Variable]
    ([/], [*], [**], [+], [-] and their reflected forms), which the
    framework patches onto the class outside the sources: one elementwise
    operator on the two operands, in the order they are written. *)
Definition elementwise (k : binop) (x y : pyobj) : M pyobj :=
  vx <- as_variable x ;;
  vy <- as_variable y ;;
  out <- new_tmp ;;
  append_op (Elementwise k vx vy out) ;;
  ret (PyVariable out).

(** Modelled from the spec: [layers.elementwise_min(x, y)]. *)
Definition layers_elementwise_min (x y : pyobj) : M pyobj :=
  vx <- expect_variable x ;;
  vy <- expect_variable y ;;
  out <- new_tmp ;;
  append_op (Elementwise elementwise_min vx vy out) ;;
  ret (PyVariable out).

(** Modelled from the spec: [layers.floor], [layers.ceil] and
    [layers.exp], one operator on one variable each. *)
Definition activation (k : unop) (x : pyobj) : M pyobj :=
  vx <- expect_variable x ;;
  out <- new_tmp ;;
  append_op (Activation k vx out) ;;
  ret (PyVariable out).

Definition layers_floor : pyobj -> M pyobj := activation op_floor.
Definition layers_ceil : pyobj -> M pyobj := activation op_ceil.
Definition layers_exp : pyobj -> M pyobj := activation op_exp.

(** Modelled from the spec: the comparisons [<] and [==] of two variables,
    which give a boolean variable. *)
Definition compare (k : cmpop) (x y : pyobj) : M pyobj :=
  vx <- expect_variable x ;;
  vy <- expect_variable y ;;
  out <- new_tmp ;;
  append_op (Compare k vx vy out) ;;
  ret (PyVariable out).

(** Modelled from the spec: [layers.assign(input, output)], which copies
    a variable into an existing one. *)
Definition layers_assign (input output : pyobj) : M unit :=
  vi <- expect_variable input ;;
  vo <- expect_variable output ;;
  append_op (Assign vi vo).

(** Modelled from the spec: [layers.create_global_var(shape=[1], value,
    dtype='float32', persistable, name)]: the variable of that name in the
    global block, and its initialiser in the start-up program.  A variable
    is known by its name, so a second call with the same name gives the same
    variable. *)
Definition layers_create_global_var
    (value : R) (persistable : bool) (name : string) : M pyobj :=
  modify (fun p =>
            set_startup
              (startup p ++ [GlobalVar (Named name) (float value) persistable])
              p) ;;
  ret (PyVariable (Named name)).

(** Modelled from the spec: [with init_on_cpu(): body], the "run on CPU"
    scope of the initialiser module: a flag of the framework that is set
    inside the block and put back after it. *)
Definition init_on_cpu {A : Type} (body : M A) : M A :=
  p <- get ;;
  let pre_state := force_init_on_cpu p in
  modify (set_force_init_on_cpu true) ;;
  r <- body ;;
  modify (set_force_init_on_cpu pre_state) ;;
  ret r.

(** Modelled from the spec: [with layers.Switch() as switch: body], the
    piecewise step of the docstrings ([if] / [elif] / [else]): the
    conditions are computed in the enclosing block while the body runs, and
    the switch itself is appended when the [with] block is left. *)
Definition Switch (body : M unit) : M unit :=
  modify (set_open_switch (Some (SwitchObj [] None))) ;;
  body ;;
  p <- get ;;
  match open_switch p with
  | Some sw =>
      modify (fun p =>
                set_open_switch None
                  (set_global_block
                     (global_block p ++ [SwitchOp (sw_cases sw) (sw_default sw)])
                     p))
  | None => ret tt
  end.

(** Runs [body] with a fresh sub-block as the current block and gives the
    sub-block back. *)
Definition in_sub_block (body : M unit) : M (list op) :=
  modify (set_sub_block (Some [])) ;;
  body ;;
  p <- get ;;
  modify (set_sub_block None) ;;
  match sub_block p with
  | Some b => ret b
  | None => ret []
  end.

(** Modelled from the spec: [with switch.case(condition): body]: one more
    case, tried after the cases before it. *)
Definition switch_case (condition : pyobj) (body : M unit) : M unit :=
  c <- expect_variable condition ;;
  p <- get ;;
  match open_switch p with
  | None => raise (ValueError "case should be called inside with")
  | Some _ =>
      b <- in_sub_block body ;;
      modify (fun p =>
                match open_switch p with
                | Some sw =>
                    set_open_switch
                      (Some (SwitchObj (sw_cases sw ++ [(c, b)]) (sw_default sw)))
                      p
                | None => p
                end)
  end.

(** Modelled from the spec: [with switch.default(): body]: the block that
    runs when no case does. *)
Definition switch_default (body : M unit) : M unit :=
  p <- get ;;
  match open_switch p with
  | None => raise (ValueError "default should be called inside with")
  | Some _ =>
      b <- in_sub_block body ;;
      modify (fun p =>
                match open_switch p with
                | Some sw =>
                    set_open_switch (Some (SwitchObj (sw_cases sw) (Some b))) p
                | None => p
                end)
  end.

(** *** Python operators on numbers and variables *)

(** The power function of the platform ([std::pow] on float32), which the
    [elementwise_pow] kernel and Python's [**] compute with.  It is not part
    of the sources and is a parameter of the development. *)
Class PowKernel : Type := pow_kernel : R -> R -> R.

Section Operators.

Context {pk : PowKernel}.

(** Modelled from the spec: the kernels of the elementwise operators, as
    the arithmetic of the reals. *)
Definition arith (k : binop) (a b : R) : R :=
  match k with
  | elementwise_add => a + b
  | elementwise_sub => a - b
  | elementwise_mul => a * b
  | elementwise_div => a / b
  | elementwise_pow => pow_kernel a b
  | elementwise_min => Rmin a b
  end.

(** [x (op) y] in Python: plain arithmetic on two numbers, an operator of
    the graph as soon as one side is a [Variable].  In the decay functions
    the left operand of every [/] is a [Variable], so that the integer
    division of two Python ints does not occur. *)
Definition py_binop (k : binop) (x y : pyobj) : M pyobj :=
  match x, y with
  | PyNum a, PyNum b => ret (PyNum (arith k a b))
  | PyNone, _ | _, PyNone => raise TypeError
  | _, _ => elementwise k x y
  end.

Definition py_add : pyobj -> pyobj -> M pyobj := py_binop elementwise_add.
Definition py_sub : pyobj -> pyobj -> M pyobj := py_binop elementwise_sub.
Definition py_mul : pyobj -> pyobj -> M pyobj := py_binop elementwise_mul.
Definition py_div : pyobj -> pyobj -> M pyobj := py_binop elementwise_div.
Definition py_pow : pyobj -> pyobj -> M pyobj := py_binop elementwise_pow.

(** [float(x)] on a Python object. *)
Definition py_float (x : pyobj) : M R :=
  match x with
  | PyNum r => ret (float r)
  | _ => raise TypeError
  end.

(** [l[i]] on a list. *)
Definition py_index (l : list R) (i : nat) : M R :=
  match nth_error l i with
  | Some x => ret x
  | None => raise IndexError
  end.

(** [for i in range(n): body] *)
Fixpoint for_in {A : Type} (l : list A) (body : A -> M unit) : M unit :=
  match l with
  | [] => ret tt
  | i :: l' => body i ;; for_in l' body
  end.

Definition range (n : nat) : list nat := seq 0 n.

(** *** The executor

    Modelled from the spec: the execution engine is outside the sources (the
    module only builds the graph).  The executor below gives every operator
    the meaning of its name on the reals, with a total division, and keeps
    two logs that the engine does not have and that the analysis reads. *)

Inductive tensor : Type :=
| TFloat (r : R)
| TBool (b : bool).

(** The state of a run: the scope, and two logs kept for the analysis of the
    run: the divisor of every division and the target of every [assign], in
    the order of execution. *)
Record machine : Type := Machine {
  vars : varname -> option tensor;
  divisors : list R;
  assigned : list varname
}.

Definition write (x : varname) (t : tensor) (m : machine) : machine :=
  Machine (fun y => if varname_eqb y x then Some t else vars m y)
          (divisors m) (assigned m).

Definition log_divisor (k : binop) (b : R) (m : machine) : machine :=
  match k with
  | elementwise_div => Machine (vars m) (divisors m ++ [b]) (assigned m)
  | _ => m
  end.

Definition log_assign (x : varname) (m : machine) : machine :=
  Machine (vars m) (divisors m) (assigned m ++ [x]).

Definition Rfloor (x : R) : R := IZR (Zfloor x).
Definition Rceil (x : R) : R := IZR (Zceil x).

Definition apply_unop (k : unop) (a : R) : R :=
  match k with
  | op_floor => Rfloor a
  | op_ceil => Rceil a
  | op_exp => Rtrigo_def.exp a
  end.

Definition apply_cmp (k : cmpop) (a b : R) : bool :=
  match k with
  | less_than => if Rlt_dec a b then true else false
  | equal => if Req_dec_T a b then true else false
  end.

(** Modelled from the spec: one operator of the graph, on float32 tensors
    of shape [1] read as reals.  The result is [None] when an input is
    missing from the scope or has the wrong type. *)
Definition exec_op (o : op) (m : machine) : option machine :=
  match o with
  | FillConstant out value _ => Some (write out (TFloat value) m)
  | Elementwise k x y out =>
      match vars m x, vars m y with
      | Some (TFloat a), Some (TFloat b) =>
          Some (write out (TFloat (arith k a b)) (log_divisor k b m))
      | _, _ => None
      end
  | Activation k x out =>
      match vars m x with
      | Some (TFloat a) => Some (write out (TFloat (apply_unop k a)) m)
      | _ => None
      end
  | Compare k x y out =>
      match vars m x, vars m y with
      | Some (TFloat a), Some (TFloat b) =>
          Some (write out (TBool (apply_cmp k a b)) m)
      | _, _ => None
      end
  | Assign input output =>
      match vars m input with
      | Some t => Some (write output t (log_assign output m))
      | None => None
      end
  end.

Fixpoint exec_block (b : list op) (m : machine) : option machine :=
  match b with
  | [] => Some m
  | o :: b' =>
      match exec_op o m with
      | Some m' => exec_block b' m'
      | None => None
      end
  end.

(** Modelled from the spec: the switch as the step function of the
    docstrings.  The first case whose condition holds runs, and only that
    one; the default runs when no condition holds. *)
Fixpoint exec_switch (cases : list (varname * list op))
    (default : option (list op)) (m : machine) : option machine :=
  match cases with
  | [] =>
      match default with
      | Some b => exec_block b m
      | None => Some m
      end
  | (c, b) :: cases' =>
      match vars m c with
      | Some (TBool true) => exec_block b m
      | Some (TBool false) => exec_switch cases' default m
      | _ => None
      end
  end.

Definition exec_stmt (s : stmt) (m : machine) : option machine :=
  match s with
  | Op o => exec_op o m
  | SwitchOp cases default => exec_switch cases default m
  end.

Fixpoint exec (b : list stmt) (m : machine) : option machine :=
  match b with
  | [] => Some m
  | s :: b' =>
      match exec_stmt s m with
      | Some m' => exec b' m'
      | None => None
      end
  end.

(** The number a Python object stands for in a scope. *)
Definition value_of (m : machine) (o : pyobj) : option R :=
  match o with
  | PyNum r => Some r
  | PyVariable v =>
      match vars m v with
      | Some (TFloat r) => Some r
      | _ => None
      end
  | PyNone => None
  end.

End Operators.

End Framework.

(** ** [learning_rate_decay.py] *)

Module LearningRateDecay.

Import Framework.
Local Open Scope builder_scope.

Section Decay.

Context {pk : PowKernel}.

Definition exponential_decay
    (learning_rate global_step decay_steps decay_rate : pyobj)
    (staircase : bool) : M pyobj :=
  if negb (isinstance_Variable global_step) then
    raise (ValueError "global_step is required for exponential_decay.")
  else
    init_on_cpu (
      div_res <- py_div global_step decay_steps ;;
      div_res <- (if staircase then layers_floor div_res else ret div_res) ;;
      rate_pow <- py_pow decay_rate div_res ;;
      decayed_lr <- py_mul learning_rate rate_pow ;;
      ret decayed_lr).

Definition natural_exp_decay
    (learning_rate global_step decay_steps decay_rate : pyobj)
    (staircase : bool) : M pyobj :=
  if negb (isinstance_Variable global_step) then
    raise (ValueError "global_step is required for natural_exp_decay.")
  else
    init_on_cpu (
      div_res <- py_div global_step decay_steps ;;
      div_res <- (if staircase then layers_floor div_res else ret div_res) ;;
      neg_rate <- py_mul (PyNum (-1)) decay_rate ;;
      exponent <- py_mul neg_rate div_res ;;
      e <- layers_exp exponent ;;
      decayed_lr <- py_mul learning_rate e ;;
      ret decayed_lr).

Definition inverse_time_decay
    (learning_rate global_step decay_steps decay_rate : pyobj)
    (staircase : bool) : M pyobj :=
  if negb (isinstance_Variable global_step) then
    raise (ValueError "global_step is required for inverse_time_decay.")
  else
    init_on_cpu (
      div_res <- py_div global_step decay_steps ;;
      div_res <- (if staircase then layers_floor div_res else ret div_res) ;;
      scaled <- py_mul decay_rate div_res ;;
      denom <- py_add (PyNum 1) scaled ;;
      decayed_lr <- py_div learning_rate denom ;;
      ret decayed_lr).

Definition polynomial_decay
    (learning_rate global_step decay_steps end_learning_rate power : pyobj)
    (cycle : bool) : M pyobj :=
  if negb (isinstance_Variable global_step) then
    raise (ValueError "global_step is required for inverse_time_decay.")
  else
    init_on_cpu (
      sd <- (if cycle then
               quot <- py_div global_step decay_steps ;;
               div_res <- layers_ceil quot ;;
               zero_var <- fill_constant 0 ;;
               one_var <- fill_constant 1 ;;
               Switch (
                 cond <- compare equal global_step zero_var ;;
                 switch_case cond (layers_assign one_var div_res)) ;;
               decay_steps <- py_mul decay_steps div_res ;;
               ret (global_step, decay_steps)
             else
               steps <- py_float decay_steps ;;
               decay_steps_var <- fill_constant steps ;;
               global_step <- layers_elementwise_min global_step decay_steps_var ;;
               ret (global_step, decay_steps)) ;;
      let global_step := fst sd in
      let decay_steps := snd sd in
      span <- py_sub learning_rate end_learning_rate ;;
      quot <- py_div global_step decay_steps ;;
      base <- py_sub (PyNum 1) quot ;;
      factor <- py_pow base power ;;
      scaled <- py_mul span factor ;;
      decayed_lr <- py_add scaled end_learning_rate ;;
      ret decayed_lr).

Definition piecewise_decay
    (global_step : pyobj) (boundaries values : list R) : M pyobj :=
  if negb (Z.eqb (Z.of_nat (List.length values) - Z.of_nat (List.length boundaries)) 1)
  then raise (ValueError "len(values) - len(boundaries) should be 1")
  else if negb (isinstance_Variable global_step) then
    raise (ValueError "global_step is required for piecewise_decay.")
  else
    init_on_cpu (
      lr <- layers_create_global_var 0 true "learning_rate" ;;
      Switch (
        for_in (range (List.length boundaries)) (fun i =>
          b <- py_index boundaries i ;;
          boundary_val <- fill_constant (float b) ;;
          v <- py_index values i ;;
          value_var <- fill_constant (float v) ;;
          cond <- compare less_than global_step boundary_val ;;
          switch_case cond (layers_assign value_var lr)) ;;
        v <- py_index values (List.length values - 1) ;;
        last_value_var <- fill_constant (float v) ;;
        switch_default (layers_assign last_value_var lr)) ;;
      ret lr).

End Decay.

End LearningRateDecay.

(** ** Running what a builder emits *)

Module Run.

Import Framework.

Section Run.

Context {pk : PowKernel}.

(** The statements a call appended to the global block. *)
Definition emitted (p p' : program) : list stmt :=
  skipn (List.length (global_block p)) (global_block p').

Definition start (sc : varname -> option tensor) : machine :=
  Machine sc [] [].

(** Build in program [p], then execute the emitted statements on scope
    [sc]: the returned Python object and the final state of the run. *)
Definition run (c : M pyobj) (p : program) (sc : varname -> option tensor)
    : option (pyobj * machine) :=
  match c p with
  | Ok out p' =>
      match exec (emitted p p') (start sc) with
      | Some m => Some (out, m)
      | None => None
      end
  | Raise _ => None
  end.

(** The number the returned object holds after the run. *)
Definition returns (c : M pyobj) (p : program)
    (sc : varname -> option tensor) : option R :=
  match run c p sc with
  | Some (out, m) => value_of m out
  | None => None
  end.

(** The divisors of the divisions of the run, in order. *)
Definition divisions (c : M pyobj) (p : program)
    (sc : varname -> option tensor) : option (list R) :=
  match run c p sc with
  | Some (_, m) => Some (divisors m)
  | None => None
  end.

(** The targets of the [assign] operators the run executed, in order. *)
Definition assignments (c : M pyobj) (p : program)
    (sc : varname -> option tensor) : option (list varname) :=
  match run c p sc with
  | Some (_, m) => Some (assigned m)
  | None => None
  end.

(** The builder is not inside a [with] block of a switch. *)
Definition top_level (p : program) : Prop :=
  sub_block p = None /\ open_switch p = None.

(** A variable that exists in program [p]: the unique-name generator of [p]
    will not hand out its name again. *)
Definition known (p : program) (v : varname) : Prop :=
  match v with
  | Tmp k => (k < unique_name p)%nat
  | Named _ => True
  end.

Definition known_obj (p : program) (o : pyobj) : Prop :=
  match o with
  | PyVariable v => known p v
  | _ => True
  end.

(** The variable an operator writes, and the variables a block may write. *)
Definition op_writes (o : op) : varname :=
  match o with
  | FillConstant out _ _ => out
  | Elementwise _ _ _ out => out
  | Activation _ _ out => out
  | Compare _ _ _ out => out
  | Assign _ output => output
  end.

Definition stmt_writes (s : stmt) : list varname :=
  match s with
  | Op o => [op_writes o]
  | SwitchOp cases default =>
      flat_map (fun cb => map op_writes (snd cb)) cases
      ++ match default with
         | Some b => map op_writes b
         | None => []
         end
  end.

Definition writes (b : list stmt) : list varname := flat_map stmt_writes b.

(** The persistable variables a program declares. *)
Definition persistables (p : program) : list varname :=
  map gv_name (filter gv_persistable (startup p)).

(** A temporary created between [p] and [p']. *)
Definition fresh_tmp (p p' : program) (x : varname) : Prop :=
  exists k, x = Tmp k /\ (unique_name p <= k < unique_name p')%nat.

(** What a call does to the program and, when its statements run, to the
    scope: it appends to the global block, leaves the builder at top level
    with the [init_on_cpu] flag restored, declares the persistable variables
    [globals] and no other, returns a fresh temporary or one of [globals],
    and writes fresh temporaries and [globals] only, so that the variables
    the program already had keep their values. *)
Definition frame (c : M pyobj) (globals : list varname) : Prop :=
  forall p out p',
    top_level p -> c p = Ok out p' ->
    global_block p' = global_block p ++ emitted p p' /\
    top_level p' /\
    force_init_on_cpu p' = force_init_on_cpu p /\
    persistables p' = persistables p ++ globals /\
    (exists x, out = PyVariable x /\ (fresh_tmp p p' x \/ In x globals)) /\
    Forall (fun x => fresh_tmp p p' x \/ In x globals)
           (writes (emitted p p')) /\
    (forall m m' x,
        exec (emitted p p') m = Some m' ->
        known p x -> ~ In x globals -> vars m' x = vars m x).

(** The call raises a [ValueError]. *)
Definition raises_ValueError {A : Type} (r : result A) : Prop :=
  exists msg, r = Raise (ValueError msg).

(** Two calls in a row, for the result of the first. *)
Definition first_of (c1 c2 : M pyobj) : M pyobj :=
  bind c1 (fun out1 => bind c2 (fun _ => ret out1)).

(** The value of the result of [c1] is the same whether or not [c2] is
    called after it in the same program. *)
Definition independent (c1 c2 : M pyobj) (p : program)
    (sc : varname -> option tensor) : Prop :=
  returns (first_of c1 c2) p sc = returns c1 p sc.

End Run.

(** The run performs exactly the divisions by [ds], none of which is by
    zero. *)
Definition divides_by {pk : PowKernel} (c : M pyobj) (p : program)
    (sc : varname -> option tensor) (ds : list R) : Prop :=
  divisions c p sc = Some ds /\ Forall (fun d => d <> 0) ds.

(** A scope that holds a single float variable. *)
Definition scope_at (g : varname) (s : R) : varname -> option tensor :=
  fun v => if varname_eqb v g then Some (TFloat s) else None.

(** The power function of the reals on a positive base, one instance of the
    kernel the executor is parameterised by. *)
Definition real_pow : PowKernel := Rpower.

End Run.

(** ** The formulas of the docstrings *)

Module Formula.

Import Framework.

Section Formula.

Context {pk : PowKernel}.

Definition exponential (lr rate x : R) : R := lr * pow_kernel rate x.

Definition natural_exp (lr rate x : R) : R :=
  lr * Rtrigo_def.exp (-1 * rate * x).

Definition inverse_time (lr rate x : R) : R := lr / (1 + rate * x).

Definition polynomial (lr end_lr power step steps : R) : R :=
  (lr - end_lr) * pow_kernel (1 - step / steps) power + end_lr.

(** The branch of the docstring of [piecewise_decay]: the value of the first
    boundary the step is below, the last value otherwise. *)
Fixpoint piecewise (step : R) (boundaries values : list R) : R :=
  match boundaries, values with
  | b :: boundaries', v :: values' =>
      if Rlt_dec step b then v else piecewise step boundaries' values'
  | _, _ => last values 0
  end.

Definition strictly_increasing (l : list R) : Prop :=
  forall i j, (i < j < List.length l)%nat -> nth i l 0 < nth j l 0.

End Formula.

End Formula.

(** ** The shape of the graph of [piecewise_decay] *)

Module PiecewiseLoop.

Import Framework.

Section Loop.

Context {pk : PowKernel}.

(** The statements the loop over the boundaries appends to the global
    block, [u] being the first free temporary. *)
Fixpoint loop_ops (g : varname) (u : nat) (f : bool) (bs vs : list R)
    : list stmt :=
  match bs, vs with
  | b :: bs', v :: vs' =>
      Op (FillConstant (Tmp u) b f)
      :: Op (FillConstant (Tmp (1 + u)) v f)
      :: Op (Compare less_than g (Tmp u) (Tmp (2 + u)))
      :: loop_ops g (3 + u) f bs' vs'
  | _, _ => []
  end.

(** The cases the loop adds to the switch. *)
Fixpoint loop_cases (lr : varname) (u : nat) (bs vs : list R)
    : list (varname * list op) :=
  match bs, vs with
  | b :: bs', v :: vs' =>
      (Tmp (2 + u), [Assign (Tmp (1 + u)) lr]) :: loop_cases lr (3 + u) bs' vs'
  | _, _ => []
  end.

(** The state of the run after the statements of the loop. *)
Fixpoint loop_machine (u : nat) (s : R) (bs vs : list R) (m : machine)
    : machine :=
  match bs, vs with
  | b :: bs', v :: vs' =>
      loop_machine (3 + u) s bs' vs'
        (write (Tmp (2 + u)) (TBool (apply_cmp less_than s b))
           (write (Tmp (1 + u)) (TFloat v)
              (write (Tmp u) (TFloat b) m)))
  | _, _ => m
  end.

(** The conditions and the values of the cases are in the scope. *)
Fixpoint loaded (u : nat) (s : R) (bs vs : list R) (m : machine) : Prop :=
  match bs, vs with
  | b :: bs', v :: vs' =>
      vars m (Tmp (1 + u)) = Some (TFloat v) /\
      vars m (Tmp (2 + u)) = Some (TBool (apply_cmp less_than s b)) /\
      loaded (3 + u) s bs' vs' m
  | _, _ => True
  end.

End Loop.

End PiecewiseLoop.

(** ** Where the constants of a graph are initialised *)

Module GraphShape.

Import Framework.

(** The operator does not fill a constant, or fills it on the CPU. *)
Definition op_on_cpu (o : op) : bool :=
  match o with
  | FillConstant _ _ force_cpu => force_cpu
  | _ => true
  end.

Definition stmt_on_cpu (s : stmt) : bool :=
  match s with
  | Op o => op_on_cpu o
  | SwitchOp cases default =>
      forallb (fun cb : varname * list op => forallb op_on_cpu (snd cb)) cases
      && match default with
         | Some b => forallb op_on_cpu b
         | None => true
         end
  end.

(** Every constant of the block is filled on the CPU. *)
Definition constants_on_cpu (b : list stmt) : bool := forallb stmt_on_cpu b.

End GraphShape.

(** ** Lemmas on scopes, names and the executor *)

Import Framework LearningRateDecay Run PiecewiseLoop.

Section ExecutorLemmas.

Context {pk : PowKernel}.

Lemma varname_eqb_refl v : varname_eqb v v = true.
Proof. destruct v; simpl; [apply String.eqb_refl | apply Nat.eqb_refl]. Qed.

Lemma varname_eqb_neq a b : a <> b -> varname_eqb a b = false.
Proof.
  destruct a, b; simpl; intros H; try reflexivity.
  - apply String.eqb_neq. congruence.
  - apply Nat.eqb_neq. congruence.
Qed.

Lemma vars_write_eq x t m : vars (write x t m) x = Some t.
Proof. simpl. now rewrite varname_eqb_refl. Qed.

Lemma vars_write_neq x y t m : y <> x -> vars (write x t m) y = vars m y.
Proof. intros H. simpl. now rewrite varname_eqb_neq. Qed.

Lemma vars_log_divisor k b m y : vars (log_divisor k b m) y = vars m y.
Proof. now destruct k. Qed.

Lemma vars_log_assign x m y : vars (log_assign x m) y = vars m y.
Proof. reflexivity. Qed.

Lemma known_neq p v k : known p v -> (unique_name p <= k)%nat -> v <> Tmp k.
Proof.
  destruct v; simpl; intros H Hk; [discriminate | intros [= ->]; lia].
Qed.

Lemma emitted_app gb new n st f sb os n' st' f' sb' os' :
  emitted (Program gb n st f sb os) (Program (gb ++ new) n' st' f' sb' os')
  = new.
Proof.
  unfold emitted. simpl.
  rewrite skipn_app, skipn_all, Nat.sub_diag. reflexivity.
Qed.

Lemma exec_fill out v f rest m :
  exec (Op (FillConstant out v f) :: rest) m
  = exec rest (write out (TFloat v) m).
Proof. reflexivity. Qed.

Lemma exec_elementwise k x y out a b rest m :
  vars m x = Some (TFloat a) -> vars m y = Some (TFloat b) ->
  exec (Op (Elementwise k x y out) :: rest) m =
  exec rest (write out (TFloat (arith k a b)) (log_divisor k b m)).
Proof. intros Hx Hy. simpl. now rewrite Hx, Hy. Qed.

Lemma exec_activation k x out a rest m :
  vars m x = Some (TFloat a) ->
  exec (Op (Activation k x out) :: rest) m =
  exec rest (write out (TFloat (apply_unop k a)) m).
Proof. intros Hx. simpl. now rewrite Hx. Qed.

Lemma exec_compare k x y out a b rest m :
  vars m x = Some (TFloat a) -> vars m y = Some (TFloat b) ->
  exec (Op (Compare k x y out) :: rest) m =
  exec rest (write out (TBool (apply_cmp k a b)) m).
Proof. intros Hx Hy. simpl. now rewrite Hx, Hy. Qed.

Lemma exec_app b1 b2 m :
  exec (b1 ++ b2) m =
  match exec b1 m with
  | Some m' => exec b2 m'
  | None => None
  end.
Proof.
  revert m. induction b1 as [|s b1 IH]; intros m; simpl; [reflexivity|].
  destruct (exec_stmt s m); [apply IH | reflexivity].
Qed.

End ExecutorLemmas.

(** Two names are different: by their shape, by their numbers, or because
    one of them is known to the program and the other is fresh. *)
Ltac names_neq :=
  solve [ discriminate
        | intros [= ?]; lia
        | eapply known_neq; [eassumption | simpl; lia] ].

Ltac lookup :=
  repeat first [ rewrite vars_write_eq
               | rewrite vars_write_neq by names_neq
               | rewrite vars_log_divisor
               | rewrite vars_log_assign ];
  solve [ reflexivity | eassumption ].

Ltac exec_step :=
  first [ rewrite exec_fill
        | erewrite exec_elementwise by lookup
        | erewrite exec_activation by lookup
        | erewrite exec_compare by lookup ].

(** Unfolds a builder down to the program it returns. *)
Ltac compute_builder :=
  cbv [exponential_decay natural_exp_decay inverse_time_decay polynomial_decay
       init_on_cpu py_div py_mul py_pow py_add py_sub py_binop py_float
       elementwise layers_floor layers_ceil layers_exp activation
       layers_elementwise_min compare layers_assign Switch switch_case
       in_sub_block as_variable expect_variable fill_constant new_tmp
       append_op bind ret raise get modify isinstance_Variable negb fst snd
       set_global_block set_unique_name set_startup set_force_init_on_cpu
       set_sub_block set_open_switch
       global_block unique_name startup force_init_on_cpu sub_block
       open_switch sw_cases sw_default].

Ltac build :=
  compute_builder;
  rewrite <- ?app_assoc; cbn [app]; rewrite ?emitted_app.

(** Opens the program of a goal with a [top_level] hypothesis. *)
Ltac open_program p :=
  match goal with
  | H : top_level p |- _ =>
      let Hsb := fresh "Hsb" in
      let Hos := fresh "Hos" in
      destruct H as [Hsb Hos];
      destruct p as [?gb ?un ?st ?f ?sb ?os];
      cbn [sub_block open_switch] in Hsb, Hos; subst
  end.

(** Splits a learning rate into a number and a variable. *)
Ltac open_rate o H :=
  destruct o as [| ? | ?]; cbn [value_of start vars] in H;
  [ discriminate H | injection H as -> | ].

Ltac run_formula :=
  unfold returns, run; build; repeat exec_step;
  cbn [exec value_of]; lookup.

(** ** Theorems *)

Section DecayTheorems.

Context {pk : PowKernel}.

(** A learning rate given as a variable holds a float when it has a value. *)
Lemma value_of_variable (sc : varname -> option tensor) v lr :
  match sc v with
  | Some (TFloat r) => Some r
  | _ => None
  end = Some lr -> sc v = Some (TFloat lr).
Proof. destruct (sc v) as [[r|b]|]; congruence. Qed.

(** C1: without staircase, [exponential_decay] returns
    [learning_rate * decay_rate ^ (global_step / decay_steps)], whether the
    learning rate is a Python number or a variable. *)
Theorem exponential_decay_formula p sc learning_rate g lr s n r :
  top_level p -> known p g -> known_obj p learning_rate ->
  sc g = Some (TFloat s) ->
  value_of (start sc) learning_rate = Some lr ->
  returns (exponential_decay learning_rate (PyVariable g) (PyNum n) (PyNum r)
                             false) p sc
  = Some (lr * pow_kernel r (s / n)).
Proof.
  intros Htop Hg Hlr Hs Hv. open_program p. open_rate learning_rate Hv.
  - run_formula.
  - apply value_of_variable in Hv. cbn [known_obj] in Hlr. run_formula.
Qed.

(** C3: with staircase, each of [exponential_decay], [natural_exp_decay] and
    [inverse_time_decay] returns the value of its formula without staircase
    where [global_step / decay_steps] is replaced by its floor. *)
Theorem staircase_floors_exponent p sc learning_rate g lr s n r :
  top_level p -> known p g -> known_obj p learning_rate ->
  sc g = Some (TFloat s) ->
  value_of (start sc) learning_rate = Some lr ->
  let call f staircase :=
    returns (f learning_rate (PyVariable g) (PyNum n) (PyNum r) staircase)
            p sc in
  (call exponential_decay false = Some (Formula.exponential lr r (s / n)) /\
   call exponential_decay true
   = Some (Formula.exponential lr r (Rfloor (s / n)))) /\
  (call natural_exp_decay false = Some (Formula.natural_exp lr r (s / n)) /\
   call natural_exp_decay true
   = Some (Formula.natural_exp lr r (Rfloor (s / n)))) /\
  (call inverse_time_decay false = Some (Formula.inverse_time lr r (s / n)) /\
   call inverse_time_decay true
   = Some (Formula.inverse_time lr r (Rfloor (s / n)))).
Proof.
  intros Htop Hg Hlr Hs Hv call. subst call. cbv beta.
  open_program p. open_rate learning_rate Hv.
  - repeat split; run_formula.
  - apply value_of_variable in Hv. cbn [known_obj] in Hlr.
    repeat split; run_formula.
Qed.

Lemma exec_switch_one c a b cond t rest m :
  vars m c = Some (TBool cond) -> vars m a = Some t ->
  exec (SwitchOp [(c, [Assign a b])] None :: rest) m =
  exec rest (if cond then write b t (log_assign b m) else m).
Proof.
  intros Hc Ha. cbn [exec exec_stmt exec_switch]. rewrite Hc.
  destruct cond; [|reflexivity].
  cbn [exec_block exec_op]. now rewrite Ha.
Qed.

(** The multiplier of [decay_steps] in a cycling polynomial decay: the
    ceiling of the quotient, and 1 at step 0. *)
Lemma polynomial_cycle_run p sc learning_rate g lr s n e pw :
  top_level p -> known p g -> known_obj p learning_rate ->
  sc g = Some (TFloat s) ->
  value_of (start sc) learning_rate = Some lr ->
  let mult := if Req_dec_T s 0 then 1 else Rceil (s / n) in
  exists out m,
    run (polynomial_decay learning_rate (PyVariable g) (PyNum n) (PyNum e)
                          (PyNum pw) true) p sc = Some (out, m) /\
    value_of m out = Some (Formula.polynomial lr e pw s (n * mult)) /\
    divisors m = [n; n * mult] /\
    vars m (Tmp (2 + unique_name p)) = Some (TFloat mult).
Proof.
  intros Htop Hg Hlr Hs Hv mult. subst mult.
  open_program p. open_rate learning_rate Hv.
  - unfold run; build. repeat exec_step.
    erewrite exec_switch_one by lookup.
    unfold apply_cmp. destruct (Req_dec_T s 0) as [E|E];
      repeat exec_step; cbn [exec]; do 2 eexists;
      (split; [reflexivity|]); cbn [value_of];
      (split; [lookup|]); (split; [reflexivity|]);
      cbn [unique_name Nat.add]; lookup.
  - apply value_of_variable in Hv. cbn [known_obj] in Hlr.
    unfold run; build. repeat exec_step.
    erewrite exec_switch_one by lookup.
    unfold apply_cmp. destruct (Req_dec_T s 0) as [E|E];
      repeat exec_step; cbn [exec]; do 2 eexists;
      (split; [reflexivity|]); cbn [value_of];
      (split; [lookup|]); (split; [reflexivity|]);
      cbn [unique_name Nat.add]; lookup.
Qed.

Lemma polynomial_clamp_run p sc learning_rate g lr s n e pw :
  top_level p -> known p g -> known_obj p learning_rate ->
  sc g = Some (TFloat s) ->
  value_of (start sc) learning_rate = Some lr ->
  exists out m,
    run (polynomial_decay learning_rate (PyVariable g) (PyNum n) (PyNum e)
                          (PyNum pw) false) p sc = Some (out, m) /\
    value_of m out = Some (Formula.polynomial lr e pw (Rmin s n) n) /\
    divisors m = [n].
Proof.
  intros Htop Hg Hlr Hs Hv.
  open_program p. open_rate learning_rate Hv.
  - unfold run; build. repeat exec_step. cbn [exec]. do 2 eexists.
    split; [reflexivity|]. cbn [value_of]. split; [lookup | reflexivity].
  - apply value_of_variable in Hv. cbn [known_obj] in Hlr.
    unfold run; build. repeat exec_step. cbn [exec]. do 2 eexists.
    split; [reflexivity|]. cbn [value_of]. split; [lookup | reflexivity].
Qed.

Lemma Rfloor_nonneg x : 0 <= x -> 0 <= Rfloor x.
Proof.
  intros H. unfold Rfloor. apply IZR_le. apply Zfloor_lub. exact H.
Qed.

Lemma Rceil_pos x : 0 < x -> 0 < Rceil x.
Proof.
  intros H. unfold Rceil. pose proof (Zceil_bound x) as [_ Hb]. lra.
Qed.

Lemma Rceil_0 : Rceil 0 = 0.
Proof. unfold Rceil. rewrite (Zceil_eq 0 0); [reflexivity | simpl; lra]. Qed.

Lemma Rdiv_nonneg a b : 0 <= a -> 0 < b -> 0 <= a / b.
Proof.
  intros Ha Hb. apply Rmult_le_pos; [exact Ha|].
  left. apply Rinv_0_lt_compat. exact Hb.
Qed.

Lemma Rdiv_pos a b : 0 < a -> 0 < b -> 0 < a / b.
Proof.
  intros Ha Hb. apply Rmult_lt_0_compat; [exact Ha|].
  apply Rinv_0_lt_compat. exact Hb.
Qed.

(** What the three exponent-based schedules divide by. *)
Lemma exponent_decay_divisions p sc learning_rate g lr s n r
    (staircase : bool) :
  top_level p -> known p g -> known_obj p learning_rate ->
  sc g = Some (TFloat s) ->
  value_of (start sc) learning_rate = Some lr ->
  let x := if staircase then Rfloor (s / n) else s / n in
  let call f :=
    divisions (f learning_rate (PyVariable g) (PyNum n) (PyNum r) staircase)
              p sc in
  call exponential_decay = Some [n] /\
  call natural_exp_decay = Some [n] /\
  call inverse_time_decay = Some [n; 1 + r * x].
Proof.
  intros Htop Hg Hlr Hs Hv x call. subst x call. cbv beta.
  open_program p. open_rate learning_rate Hv.
  - destruct staircase; repeat split;
      unfold divisions, run; build; repeat exec_step; reflexivity.
  - apply value_of_variable in Hv. cbn [known_obj] in Hlr.
    destruct staircase; repeat split;
      unfold divisions, run; build; repeat exec_step; reflexivity.
Qed.

(** C6: with [decay_steps > 0], [global_step >= 0] and [decay_rate >= 0],
    the runs of the four schedules that divide perform exactly the divisions
    listed, and no divisor is zero. *)
Theorem divisors_are_nonzero p sc learning_rate g lr s n r e pw
    (staircase : bool) :
  top_level p -> known p g -> known_obj p learning_rate ->
  sc g = Some (TFloat s) ->
  value_of (start sc) learning_rate = Some lr ->
  0 < n -> 0 <= s -> 0 <= r ->
  let x := if staircase then Rfloor (s / n) else s / n in
  let mult := if Req_dec_T s 0 then 1 else Rceil (s / n) in
  let G := PyVariable g in
  divides_by (exponential_decay learning_rate G (PyNum n) (PyNum r) staircase)
             p sc [n] /\
  divides_by (natural_exp_decay learning_rate G (PyNum n) (PyNum r) staircase)
             p sc [n] /\
  divides_by (inverse_time_decay learning_rate G (PyNum n) (PyNum r) staircase)
             p sc [n; 1 + r * x] /\
  divides_by (polynomial_decay learning_rate G (PyNum n) (PyNum e) (PyNum pw)
                               false)
             p sc [n] /\
  divides_by (polynomial_decay learning_rate G (PyNum n) (PyNum e) (PyNum pw)
                               true)
             p sc [n; n * mult].
Proof.
  intros Htop Hg Hlr Hs Hv Hn Hs0 Hr x mult G. subst G. unfold divides_by.
  destruct (exponent_decay_divisions p sc learning_rate g lr s n r staircase
              Htop Hg Hlr Hs Hv) as (He & Hne & Hi).
  destruct (polynomial_clamp_run p sc learning_rate g lr s n e pw
              Htop Hg Hlr Hs Hv) as (o1 & m1 & Hr1 & _ & Hd1).
  destruct (polynomial_cycle_run p sc learning_rate g lr s n e pw
              Htop Hg Hlr Hs Hv) as (o2 & m2 & Hr2 & _ & Hd2 & _).
  assert (Hn0 : n <> 0) by lra.
  assert (Hx : 0 <= x).
  { subst x. pose proof (Rdiv_nonneg s n Hs0 Hn).
    destruct staircase; [now apply Rfloor_nonneg | assumption]. }
  assert (Hm : 0 < mult).
  { subst mult. destruct (Req_dec_T s 0) as [E|E]; [lra|].
    apply Rceil_pos. apply Rdiv_pos; lra. }
  repeat split.
  - exact He.
  - repeat constructor; assumption.
  - exact Hne.
  - repeat constructor; assumption.
  - exact Hi.
  - repeat constructor; [assumption|]. pose proof (Rmult_le_pos r x Hr Hx). lra.
  - unfold divisions. rewrite Hr1, Hd1. reflexivity.
  - repeat constructor; assumption.
  - unfold divisions. rewrite Hr2, Hd2. reflexivity.
  - repeat constructor; [assumption|].
    pose proof (Rmult_lt_0_compat n mult Hn Hm). lra.
Qed.

(** C5, as the code has it: without cycle the step is clamped to
    [min(global_step, decay_steps)]; with cycle and a step other than 0 the
    divisor is [decay_steps * ceil(global_step / decay_steps)]; with cycle at
    step 0 the divisor is [decay_steps * 1]. *)
Theorem polynomial_decay_formula p sc learning_rate g lr s n e pw :
  top_level p -> known p g -> known_obj p learning_rate ->
  sc g = Some (TFloat s) ->
  value_of (start sc) learning_rate = Some lr ->
  let call cycle :=
    polynomial_decay learning_rate (PyVariable g) (PyNum n) (PyNum e)
                     (PyNum pw) cycle in
  (returns (call false) p sc
   = Some ((lr - e) * pow_kernel (1 - Rmin s n / n) pw + e) /\
   divisions (call false) p sc = Some [n]) /\
  (s <> 0 ->
   returns (call true) p sc
   = Some ((lr - e) * pow_kernel (1 - s / (n * Rceil (s / n))) pw + e) /\
   divisions (call true) p sc = Some [n; n * Rceil (s / n)]) /\
  (s = 0 ->
   returns (call true) p sc
   = Some ((lr - e) * pow_kernel (1 - s / (n * 1)) pw + e) /\
   divisions (call true) p sc = Some [n; n * 1]).
Proof.
  intros Htop Hg Hlr Hs Hv call. subst call. cbv beta.
  destruct (polynomial_clamp_run p sc learning_rate g lr s n e pw
              Htop Hg Hlr Hs Hv) as (o1 & m1 & Hr1 & Hv1 & Hd1).
  destruct (polynomial_cycle_run p sc learning_rate g lr s n e pw
              Htop Hg Hlr Hs Hv) as (o2 & m2 & Hr2 & Hv2 & Hd2 & _).
  unfold returns, divisions. rewrite Hr1, Hr2, Hv1, Hv2, Hd1, Hd2.
  unfold Formula.polynomial.
  repeat split; destruct (Req_dec_T s 0); intros; congruence.
Qed.

(** C9: in a cycling polynomial decay at step 0, the multiplier, whose
    computed value [ceil(0 / decay_steps)] is 0, holds 1 after the switch;
    the second division is by [decay_steps * 1], which is not zero, and the
    returned value is the learning rate. *)
Theorem polynomial_cycle_at_step_zero p sc learning_rate g lr n e pw :
  top_level p -> known p g -> known_obj p learning_rate ->
  sc g = Some (TFloat 0) ->
  value_of (start sc) learning_rate = Some lr ->
  n <> 0 ->
  pow_kernel 1 pw = 1 ->
  Rceil (0 / n) = 0 /\
  exists out m,
    run (polynomial_decay learning_rate (PyVariable g) (PyNum n) (PyNum e)
                          (PyNum pw) true) p sc = Some (out, m) /\
    vars m (Tmp (2 + unique_name p)) = Some (TFloat 1) /\
    divisors m = [n; n * 1] /\
    n * 1 <> 0 /\
    value_of m out = Some lr.
Proof.
  intros Htop Hg Hlr Hs Hv Hn Hpow.
  split.
  { replace (0 / n) with 0 by (unfold Rdiv; ring). apply Rceil_0. }
  destruct (polynomial_cycle_run p sc learning_rate g lr 0 n e pw
              Htop Hg Hlr Hs Hv) as (out & m & Hrun & Hval & Hd & Hmult).
  destruct (Req_dec_T 0 0) as [_|E]; [|contradiction].
  exists out, m. repeat split; try assumption.
  - lra.
  - rewrite Hval. unfold Formula.polynomial.
    replace (1 - 0 / (n * 1)) with 1 by (unfold Rdiv; ring).
    rewrite Hpow. f_equal. ring.
Qed.

Lemma for_in_loop (body : nat -> M unit) g lr f boundaries values :
  (forall i b v gb u st cs,
      nth_error boundaries i = Some b -> nth_error values i = Some v ->
      body i (Program gb u st f None (Some (SwitchObj cs None)))
      = Ok tt (Program (gb ++ [Op (FillConstant (Tmp u) b f);
                                Op (FillConstant (Tmp (1 + u)) v f);
                                Op (Compare less_than g (Tmp u) (Tmp (2 + u)))])
                       (3 + u) st f None
                       (Some (SwitchObj (cs ++ [(Tmp (2 + u), [Assign (Tmp (1 + u)) lr])]) None)))) ->
  forall bs vs pb pv gb u st cs,
    boundaries = pb ++ bs -> values = pv ++ vs ->
    List.length pb = List.length pv ->
    (List.length bs <= List.length vs)%nat ->
    for_in (seq (List.length pb) (List.length bs)) body
           (Program gb u st f None (Some (SwitchObj cs None)))
    = Ok tt (Program (gb ++ loop_ops g u f bs vs) (3 * List.length bs + u) st f None
                     (Some (SwitchObj (cs ++ loop_cases lr u bs vs) None))).
Proof.
  intros Hbody. induction bs as [|b bs IH]; intros vs pb pv gb u st cs Hb Hv Hlen Hle.
  - simpl. now rewrite !app_nil_r.
  - destruct vs as [|v vs]; [simpl in Hle; lia|].
    cbn [List.length seq for_in]. unfold bind at 1.
    rewrite (Hbody (List.length pb) b v).
    + specialize (IH vs (pb ++ [b]) (pv ++ [v])).
      rewrite length_app in IH. cbn [List.length] in IH.
      replace (List.length pb + 1)%nat with (S (List.length pb)) in IH by lia.
      rewrite IH.
      * cbn [loop_ops loop_cases]. rewrite <- !app_assoc. cbn [app].
        f_equal. f_equal. lia.
      * rewrite <- app_assoc. exact Hb.
      * rewrite <- app_assoc. exact Hv.
      * rewrite !length_app. simpl. lia.
      * simpl in Hle. lia.
    + rewrite Hb, nth_error_app2, Nat.sub_diag by lia. reflexivity.
    + rewrite Hv, Hlen, nth_error_app2, Nat.sub_diag by lia. reflexivity.
Qed.

Lemma loop_machine_frame x u s bs vs m :
  (forall k, (u <= k)%nat -> x <> Tmp k) ->
  vars (loop_machine u s bs vs m) x = vars m x.
Proof.
  revert u vs m. induction bs as [|b bs IH]; intros u vs m Hx; [reflexivity|].
  destruct vs as [|v vs]; [reflexivity|]. cbn [loop_machine].
  rewrite IH by (intros k Hk; apply Hx; lia).
  rewrite !vars_write_neq by (apply Hx; lia). reflexivity.
Qed.

Lemma loop_machine_logs u s bs vs m :
  divisors (loop_machine u s bs vs m) = divisors m /\
  assigned (loop_machine u s bs vs m) = assigned m.
Proof.
  revert u vs m. induction bs as [|b bs IH]; intros u vs m; [now split|].
  destruct vs as [|v vs]; [now split|]. cbn [loop_machine].
  destruct (IH (3 + u)%nat vs
    (write (Tmp (2 + u)) (TBool (apply_cmp less_than s b))
       (write (Tmp (1 + u)) (TFloat v) (write (Tmp u) (TFloat b) m)))) as [-> ->].
  now split.
Qed.

Lemma exec_loop_ops g u f s bs vs rest m :
  vars m g = Some (TFloat s) ->
  (forall k, (u <= k)%nat -> g <> Tmp k) ->
  exec (loop_ops g u f bs vs ++ rest) m = exec rest (loop_machine u s bs vs m).
Proof.
  revert u vs m. induction bs as [|b bs IH]; intros u vs m Hg Hfresh; [reflexivity|].
  destruct vs as [|v vs]; [reflexivity|].
  cbn [loop_ops loop_machine app].
  rewrite !exec_fill.
  erewrite exec_compare.
  - apply IH.
    + rewrite !vars_write_neq by (apply Hfresh; lia). exact Hg.
    + intros k Hk. apply Hfresh. lia.
  - rewrite !vars_write_neq by (apply Hfresh; lia). exact Hg.
  - rewrite vars_write_neq by (intros [= ?]; lia). apply vars_write_eq.
Qed.

Lemma loaded_loop_machine u s bs vs m :
  loaded u s bs vs (loop_machine u s bs vs m).
Proof.
  revert u vs m. induction bs as [|b bs IH]; intros u vs m; [exact I|].
  destruct vs as [|v vs]; [exact I|]. cbn [loaded loop_machine].
  repeat split.
  - rewrite loop_machine_frame by (intros k Hk [= ?]; lia).
    rewrite vars_write_neq by (intros [= ?]; lia). apply vars_write_eq.
  - rewrite loop_machine_frame by (intros k Hk [= ?]; lia).
    apply vars_write_eq.
  - apply IH.
Qed.

Lemma loaded_write u s bs vs m k t :
  (3 * List.length bs + u <= k)%nat ->
  loaded u s bs vs m -> loaded u s bs vs (write (Tmp k) t m).
Proof.
  revert u vs. induction bs as [|b bs IH]; intros u vs Hk H; [exact I|].
  destruct vs as [|v vs]; [exact I|]. cbn [loaded] in *. cbn [List.length] in Hk.
  destruct H as (H1 & H2 & H3). repeat split.
  - rewrite vars_write_neq by (intros [= ?]; lia). exact H1.
  - rewrite vars_write_neq by (intros [= ?]; lia). exact H2.
  - apply IH; [lia | exact H3].
Qed.

Lemma exec_switch_loaded lr d u s bs vs m :
  loaded u s bs vs m ->
  List.length vs = S (List.length bs) ->
  vars m d = Some (TFloat (last vs 0)) ->
  exec_switch (loop_cases lr u bs vs) (Some [Assign d lr]) m
  = Some (write lr (TFloat (Formula.piecewise s bs vs)) (log_assign lr m)).
Proof.
  revert u vs. induction bs as [|b bs IH]; intros u vs Hl Hlen Hd.
  - destruct vs as [|v [|v' vs]]; try discriminate.
    cbn [loop_cases exec_switch exec_block exec_op]. rewrite Hd. reflexivity.
  - destruct vs as [|v vs]; [discriminate|]. cbn [loaded] in Hl.
    destruct Hl as (H1 & H2 & H3).
    cbn [loop_cases exec_switch]. rewrite H2.
    cbn [Formula.piecewise]. unfold apply_cmp.
    destruct (Rlt_dec s b).
    + cbn [exec_block exec_op]. rewrite H1. reflexivity.
    + apply IH; [exact H3 | simpl in Hlen; lia |].
      rewrite Hd. destruct vs; [discriminate | reflexivity].
Qed.

Lemma nth_error_last (l : list R) d :
  l <> [] -> nth_error l (List.length l - 1) = Some (last l d).
Proof.
  induction l as [|a l IH]; [congruence|]. intros _.
  destruct l as [|b l]; [reflexivity|].
  replace (List.length (a :: b :: l) - 1)%nat
    with (S (List.length (b :: l) - 1)) by (simpl; lia).
  cbn [nth_error]. rewrite IH by discriminate. reflexivity.
Qed.

(** The program [piecewise_decay] builds, for any boundaries and values of
    matching lengths. *)
Lemma piecewise_decay_builds g boundaries values gb un st f :
  List.length values = S (List.length boundaries) ->
  let lr := Named "learning_rate" in
  let d := Tmp (3 * List.length boundaries + un) in
  piecewise_decay (PyVariable g) boundaries values
                  (Program gb un st f None None)
  = Ok (PyVariable lr)
       (Program
          (gb ++ loop_ops g un true boundaries values
              ++ [Op (FillConstant d (last values 0) true);
                  SwitchOp (loop_cases lr un boundaries values)
                           (Some [Assign d lr])])
          (S (3 * List.length boundaries + un))
          (st ++ [GlobalVar lr 0 true]) f None None).
Proof.
  intros Hlen lr d. subst lr d.
  unfold piecewise_decay.
  replace (Z.of_nat (List.length values) - Z.of_nat (List.length boundaries))%Z
    with 1%Z by lia.
  cbn [Z.eqb Pos.eqb negb isinstance_Variable].
  cbv [init_on_cpu Switch layers_create_global_var bind get modify ret
       set_force_init_on_cpu set_startup set_open_switch set_global_block
       global_block unique_name startup force_init_on_cpu sub_block
       open_switch range].
  match goal with
  | |- context [for_in _ ?body _] =>
      assert (Hbody : forall i b v gb u st cs,
        nth_error boundaries i = Some b -> nth_error values i = Some v ->
        body i (Program gb u st true None (Some (SwitchObj cs None)))
        = Ok tt (Program
                   (gb ++ [Op (FillConstant (Tmp u) b true);
                           Op (FillConstant (Tmp (1 + u)) v true);
                           Op (Compare less_than g (Tmp u) (Tmp (2 + u)))])
                   (3 + u) st true None
                   (Some (SwitchObj
                            (cs ++ [(Tmp (2 + u),
                                     [Assign (Tmp (1 + u))
                                             (Named "learning_rate")])])
                            None))));
      [ intros i b v gb' u st' cs Hb Hv; cbv beta; unfold py_index;
        rewrite Hb, Hv; build; reflexivity
      | rewrite (for_in_loop body g (Named "learning_rate") true
                   boundaries values Hbody boundaries values [] [] gb un _ []
                   eq_refl eq_refl eq_refl) by lia ]
  end.
  unfold py_index.
  rewrite (nth_error_last values 0) by (destruct values; discriminate).
  cbn [app]. build. cbv [switch_default]. build. unfold float.
  rewrite <- ?app_assoc. reflexivity.
Qed.

(** The run of [piecewise_decay]: one [assign], to the variable it returns,
    of the value of the first boundary the step is below. *)
Lemma piecewise_decay_run p sc g s boundaries values :
  top_level p -> known p g ->
  sc g = Some (TFloat s) ->
  List.length values = S (List.length boundaries) ->
  exists m,
    run (piecewise_decay (PyVariable g) boundaries values) p sc
    = Some (PyVariable (Named "learning_rate"), m) /\
    vars m (Named "learning_rate")
    = Some (TFloat (Formula.piecewise s boundaries values)) /\
    assigned m = [Named "learning_rate"] /\
    divisors m = [].
Proof.
  intros Htop Hg Hs Hlen. open_program p.
  unfold run. rewrite (piecewise_decay_builds g boundaries values) by exact Hlen.
  rewrite emitted_app.
  rewrite (exec_loop_ops g un true s) by
    (first [exact Hs | intros k Hk; eapply known_neq; [exact Hg | exact Hk]]).
  rewrite exec_fill. cbn [exec exec_stmt].
  rewrite (exec_switch_loaded (Named "learning_rate")
             (Tmp (3 * List.length boundaries + un)) un s boundaries values
             _ (loaded_write _ _ _ _ _ _ _ (Nat.le_refl _)
                  (loaded_loop_machine un s boundaries values (start sc)))
             Hlen (vars_write_eq _ _ _)).
  eexists. split; [reflexivity|]. split; [apply vars_write_eq|].
  cbn [assigned divisors write log_assign].
  destruct (loop_machine_logs un s boundaries values (start sc)) as [-> ->].
  split; reflexivity.
Qed.

Lemma piecewise_in s bs vs :
  List.length vs = S (List.length bs) -> In (Formula.piecewise s bs vs) vs.
Proof.
  revert vs. induction bs as [|b bs IH]; intros vs Hlen.
  - destruct vs as [|v [|v' vs]]; try discriminate. now left.
  - destruct vs as [|v vs]; [discriminate|]. cbn [Formula.piecewise].
    destruct (Rlt_dec s b); [now left|].
    right. apply IH. simpl in Hlen. lia.
Qed.

Lemma piecewise_at s bs vs i :
  List.length vs = S (List.length bs) ->
  (i < List.length bs)%nat ->
  (forall j, (j < i)%nat -> ~ s < nth j bs 0) ->
  s < nth i bs 0 ->
  Formula.piecewise s bs vs = nth i vs 0.
Proof.
  revert vs i. induction bs as [|b bs IH]; intros vs i Hlen Hi Hbefore Hs.
  - simpl in Hi. lia.
  - destruct vs as [|v vs]; [discriminate|]. cbn [Formula.piecewise].
    destruct i as [|i].
    + cbn [nth] in *. destruct (Rlt_dec s b); [reflexivity | contradiction].
    + destruct (Rlt_dec s b) as [Hb|Hb].
      * exfalso. apply (Hbefore 0%nat); [lia | exact Hb].
      * cbn [nth]. apply IH.
        -- simpl in Hlen. lia.
        -- simpl in Hi. lia.
        -- intros j Hj. apply (Hbefore (S j)). lia.
        -- exact Hs.
Qed.

Lemma piecewise_beyond s bs vs :
  List.length vs = S (List.length bs) ->
  (forall j, (j < List.length bs)%nat -> ~ s < nth j bs 0) ->
  Formula.piecewise s bs vs = nth (List.length bs) vs 0.
Proof.
  revert vs. induction bs as [|b bs IH]; intros vs Hlen Hall.
  - destruct vs as [|v [|v' vs]]; try discriminate. reflexivity.
  - destruct vs as [|v vs]; [discriminate|]. cbn [Formula.piecewise].
    destruct (Rlt_dec s b) as [Hb|Hb].
    + exfalso. apply (Hall 0%nat); [simpl; lia | exact Hb].
    + cbn [List.length nth]. apply IH.
      * simpl in Hlen. lia.
      * intros j Hj. apply (Hall (S j)). simpl. lia.
Qed.

(** In a strictly increasing list, the entries up to index [i] are at most
    the entry at [i]. *)
Lemma increasing_upto bs i j :
  Formula.strictly_increasing bs ->
  (j <= i < List.length bs)%nat -> nth j bs 0 <= nth i bs 0.
Proof.
  intros Hinc Hj. destruct (Nat.eq_dec j i) as [->|Hne]; [lra|].
  left. apply Hinc. lia.
Qed.

(** C2: for strictly increasing boundaries and one value more than there
    are boundaries, [piecewise_decay] returns [values[0]] below the first
    boundary, [values[i]] from [boundaries[i-1]] up to [boundaries[i]], and
    the last value from the last boundary on. *)
Theorem piecewise_decay_intervals p sc g s boundaries values :
  top_level p -> known p g ->
  sc g = Some (TFloat s) ->
  List.length values = S (List.length boundaries) ->
  Formula.strictly_increasing boundaries ->
  let n := List.length boundaries in
  let result := returns (piecewise_decay (PyVariable g) boundaries values)
                        p sc in
  ((0 < n)%nat -> s < nth 0 boundaries 0 ->
   result = Some (nth 0 values 0)) /\
  (forall i, (1 <= i < n)%nat ->
             nth (i - 1) boundaries 0 <= s < nth i boundaries 0 ->
             result = Some (nth i values 0)) /\
  ((0 < n)%nat -> nth (n - 1) boundaries 0 <= s ->
   result = Some (nth n values 0)).
Proof.
  intros Htop Hg Hs Hlen Hinc n result.
  destruct (piecewise_decay_run p sc g s boundaries values Htop Hg Hs Hlen)
    as (m & Hrun & Hval & _).
  assert (Hres : result = Some (Formula.piecewise s boundaries values)).
  { subst result. unfold returns. rewrite Hrun. cbn [value_of].
    rewrite Hval. reflexivity. }
  rewrite Hres. repeat split.
  - intros Hn Hlt. f_equal. apply piecewise_at; try assumption.
    intros j Hj. lia.
  - intros i Hi [Hlo Hhi]. f_equal. apply piecewise_at; try assumption.
    + subst n. lia.
    + intros j Hj Hlt.
      pose proof (increasing_upto boundaries (i - 1) j Hinc) as Hle.
      subst n. assert (nth j boundaries 0 <= nth (i - 1) boundaries 0)
        by (apply Hle; lia). lra.
  - intros Hn Hlo. f_equal. apply piecewise_beyond; [assumption|].
    intros j Hj Hlt.
    pose proof (increasing_upto boundaries (n - 1) j Hinc) as Hle.
    subst n. assert (nth j boundaries 0 <= nth (List.length boundaries - 1)
                                              boundaries 0)
      by (apply Hle; lia). lra.
Qed.

(** C10: for a valid call with boundaries in any order, the variable
    [piecewise_decay] declares with 0.0 is the one it returns, the run
    executes exactly one [assign], to that variable, and the value it holds
    afterwards is an element of [values], whatever the scope held before. *)
Theorem piecewise_decay_assigns_one_value p sc g s boundaries values :
  top_level p -> known p g ->
  sc g = Some (TFloat s) ->
  List.length values = S (List.length boundaries) ->
  let lr := Named "learning_rate" in
  (exists p',
      piecewise_decay (PyVariable g) boundaries values p
      = Ok (PyVariable lr) p' /\
      startup p' = startup p ++ [GlobalVar lr 0 true]) /\
  exists m v,
    run (piecewise_decay (PyVariable g) boundaries values) p sc
    = Some (PyVariable lr, m) /\
    assigned m = [lr] /\
    vars m lr = Some (TFloat v) /\
    In v values.
Proof.
  intros Htop Hg Hs Hlen lr. subst lr. split.
  - destruct Htop as [Hsb Hos]. destruct p as [gb un st f sb os].
    cbn [sub_block open_switch] in Hsb, Hos. subst.
    eexists. split; [apply piecewise_decay_builds; exact Hlen | reflexivity].
  - destruct (piecewise_decay_run p sc g s boundaries values Htop Hg Hs Hlen)
      as (m & Hrun & Hval & Hassign & _).
    exists m, (Formula.piecewise s boundaries values).
    repeat split; try assumption. apply piecewise_in. exact Hlen.
Qed.

(** Decides a claim on what a call raises once the call is evaluated. *)
Ltac settle_raise :=
  split;
  [ intros [? H]; try discriminate H; try reflexivity
  | intros H; try discriminate H; eexists; reflexivity ].

Ltac settle_gs :=
  cbv [exponential_decay natural_exp_decay inverse_time_decay polynomial_decay
       isinstance_Variable negb raise];
  split; [reflexivity | intros _; eexists; reflexivity].

(** C4: at top level, each of the four formula builders raises a
    [ValueError] exactly when [global_step] is not a [Variable], and
    [piecewise_decay] exactly when [global_step] is not a [Variable] or the
    lengths do not match. *)
Theorem decay_validation lr gs n r e pw (staircase cycle : bool) bs vs p :
  top_level p ->
  (raises_ValueError (exponential_decay lr gs n r staircase p)
   <-> isinstance_Variable gs = false) /\
  (raises_ValueError (natural_exp_decay lr gs n r staircase p)
   <-> isinstance_Variable gs = false) /\
  (raises_ValueError (inverse_time_decay lr gs n r staircase p)
   <-> isinstance_Variable gs = false) /\
  (raises_ValueError (polynomial_decay lr gs n e pw cycle p)
   <-> isinstance_Variable gs = false) /\
  (raises_ValueError (piecewise_decay gs bs vs p)
   <-> isinstance_Variable gs = false
       \/ List.length vs <> S (List.length bs)).
Proof.
  intros Htop. open_program p. unfold raises_ValueError.
  split; [|split; [|split; [|split]]].
  1-3: destruct gs; [settle_gs | settle_gs |];
       destruct lr, n, r, staircase; compute_builder; settle_raise.
  1: destruct gs; [settle_gs | settle_gs |];
     destruct lr, n, e, pw, cycle; compute_builder; settle_raise.
  split.
  - intros [msg H].
    destruct (Nat.eq_dec (List.length vs) (S (List.length bs))) as [E|E];
      [|now right].
    left. destruct gs as [| x | g]; try reflexivity.
    rewrite (piecewise_decay_builds g bs vs gb un st f E) in H.
    discriminate H.
  - intros [Hgs|Hlen].
    + unfold piecewise_decay.
      destruct (negb (Z.of_nat (List.length vs) - Z.of_nat (List.length bs)
                      =? 1)%Z); [eexists; reflexivity|].
      rewrite Hgs. eexists. reflexivity.
    + unfold piecewise_decay.
      replace (Z.of_nat (List.length vs) - Z.of_nat (List.length bs) =? 1)%Z
        with false by (symmetry; apply Z.eqb_neq; lia).
      eexists. reflexivity.
Qed.

(** *** Frame lemmas: what a run leaves alone *)

Lemma exec_op_frame o m m' x :
  exec_op o m = Some m' -> x <> op_writes o -> vars m' x = vars m x.
Proof.
  intros H Hx. destruct o as [out v f|k a b out|k a out|k a b out|a out];
    cbn [exec_op op_writes] in *.
  - injection H as <-. now rewrite vars_write_neq.
  - destruct (vars m a) as [[ra|]|]; try discriminate.
    destruct (vars m b) as [[rb|]|]; try discriminate.
    injection H as <-. now rewrite vars_write_neq, vars_log_divisor.
  - destruct (vars m a) as [[ra|]|]; try discriminate.
    injection H as <-. now rewrite vars_write_neq.
  - destruct (vars m a) as [[ra|]|]; try discriminate.
    destruct (vars m b) as [[rb|]|]; try discriminate.
    injection H as <-. now rewrite vars_write_neq.
  - destruct (vars m a) as [t|]; try discriminate.
    injection H as <-. now rewrite vars_write_neq, vars_log_assign.
Qed.

Lemma exec_block_frame b m m' x :
  exec_block b m = Some m' -> ~ In x (map op_writes b) ->
  vars m' x = vars m x.
Proof.
  revert m. induction b as [|o b IH]; intros m H Hx; cbn [exec_block] in H.
  - now injection H as <-.
  - destruct (exec_op o m) as [m1|] eqn:E; [|discriminate].
    rewrite (IH m1 H) by (intros Hin; apply Hx; now right).
    apply (exec_op_frame o m m1 x E).
    intros ->. apply Hx. now left.
Qed.

Lemma exec_switch_frame cases default m m' x :
  exec_switch cases default m = Some m' ->
  ~ In x (stmt_writes (SwitchOp cases default)) ->
  vars m' x = vars m x.
Proof.
  cbn [stmt_writes]. revert m.
  induction cases as [|[c b] cases IH]; intros m H Hx; cbn [exec_switch] in H.
  - destruct default as [b|].
    + apply (exec_block_frame b m m' x H). exact Hx.
    + now injection H as <-.
  - cbn [flat_map snd] in Hx.
    destruct (vars m c) as [[r|[|]]|]; try discriminate.
    + apply (exec_block_frame b m m' x H).
      intros Hin. apply Hx. apply in_or_app. left. apply in_or_app. now left.
    + apply (IH m H). intros Hin. apply Hx.
      rewrite <- app_assoc. apply in_or_app. now right.
Qed.

Lemma exec_frame b m m' x :
  exec b m = Some m' -> ~ In x (writes b) -> vars m' x = vars m x.
Proof.
  revert m. induction b as [|s b IH]; intros m H Hx; cbn [exec] in H.
  - now injection H as <-.
  - destruct (exec_stmt s m) as [m1|] eqn:E; [|discriminate].
    unfold writes in Hx. cbn [flat_map] in Hx.
    rewrite (IH m1 H) by (intros Hin; apply Hx; apply in_or_app; now right).
    assert (Hs : ~ In x (stmt_writes s))
      by (intros Hin; apply Hx; apply in_or_app; now left).
    destruct s as [o|cases default]; cbn [exec_stmt] in E.
    + apply (exec_op_frame o m m1 x E). intros ->. apply Hs. now left.
    + apply (exec_switch_frame cases default m m1 x E Hs).
Qed.

Lemma writes_app b1 b2 : writes (b1 ++ b2) = writes b1 ++ writes b2.
Proof. unfold writes. apply flat_map_app. Qed.

(** A call that takes a top-level program with block [gb] to one with block
    [gb ++ new] has the frame its new statements have. *)
Lemma frame_of_shape gb un st f new un' st' x globals :
  persistables (Program (gb ++ new) un' st' f None None)
  = persistables (Program gb un st f None None) ++ globals ->
  let fresh y :=
    (exists k, y = Tmp k /\ (un <= k < un')%nat) \/ In y globals in
  fresh x ->
  Forall fresh (writes new) ->
  let p := Program gb un st f None None in
  let p' := Program (gb ++ new) un' st' f None None in
  global_block p' = global_block p ++ emitted p p' /\
  top_level p' /\
  force_init_on_cpu p' = force_init_on_cpu p /\
  persistables p' = persistables p ++ globals /\
  (exists y, PyVariable x = PyVariable y /\
             (fresh_tmp p p' y \/ In y globals)) /\
  Forall (fun y => fresh_tmp p p' y \/ In y globals) (writes (emitted p p')) /\
  (forall m m' y,
      exec (emitted p p') m = Some m' ->
      known p y -> ~ In y globals -> vars m' y = vars m y).
Proof.
  intros Hpers fresh Hx Hw p p'. subst p p'. rewrite emitted_app.
  repeat split; try assumption; try reflexivity.
  - exists x. split; [reflexivity | exact Hx].
  - intros m m' y Hex Hk Hng. apply (exec_frame new m m' y Hex).
    intros Hin. rewrite Forall_forall in Hw.
    destruct (Hw y Hin) as [(k & -> & Hlo & _)|Hg]; [|contradiction].
    cbn [known unique_name] in Hk. lia.
Qed.

(** Settles the frame of a call of fixed shape from the program it built. *)
Ltac frame_case H :=
  revert H; compute_builder; intros H;
  first
    [ discriminate H
    | injection H as <- <-;
      rewrite <- ?app_assoc; cbn [app];
      apply frame_of_shape;
      [ unfold persistables; cbn [startup]; symmetry; apply app_nil_r
      | left; eexists; split; [reflexivity | lia]
      | cbn [writes flat_map stmt_writes op_writes app map snd];
        repeat (apply Forall_cons;
                [left; eexists; split; [reflexivity | lia] | ]);
        apply Forall_nil ] ].

Lemma exponential_decay_frame lr gs n r staircase :
  frame (exponential_decay lr gs n r staircase) [].
Proof.
  intros p out p' Htop Hc. open_program p.
  destruct gs; [discriminate Hc | discriminate Hc |].
  destruct lr, n, r, staircase; frame_case Hc.
Qed.

Lemma natural_exp_decay_frame lr gs n r staircase :
  frame (natural_exp_decay lr gs n r staircase) [].
Proof.
  intros p out p' Htop Hc. open_program p.
  destruct gs; [discriminate Hc | discriminate Hc |].
  destruct lr, n, r, staircase; frame_case Hc.
Qed.

Lemma inverse_time_decay_frame lr gs n r staircase :
  frame (inverse_time_decay lr gs n r staircase) [].
Proof.
  intros p out p' Htop Hc. open_program p.
  destruct gs; [discriminate Hc | discriminate Hc |].
  destruct lr, n, r, staircase; frame_case Hc.
Qed.

Lemma polynomial_decay_frame lr gs n e pw cycle :
  frame (polynomial_decay lr gs n e pw cycle) [].
Proof.
  intros p out p' Htop Hc. open_program p.
  destruct gs; [discriminate Hc | discriminate Hc |].
  destruct lr, n, e, pw, cycle; frame_case Hc.
Qed.

Lemma writes_loop_ops g u f bs vs hi :
  (3 * List.length bs + u <= hi)%nat ->
  Forall (fun y => exists k, y = Tmp k /\ (u <= k < hi)%nat)
         (writes (loop_ops g u f bs vs)).
Proof.
  revert u vs. induction bs as [|b bs IH]; intros u vs Hhi; [constructor|].
  destruct vs as [|v vs]; [constructor|].
  cbn [List.length] in Hhi.
  cbn [loop_ops writes flat_map stmt_writes op_writes app].
  repeat (apply Forall_cons; [eexists; split; [reflexivity | lia] | ]).
  specialize (IH (3 + u)%nat vs). unfold writes in IH.
  eapply Forall_impl; [|apply IH; lia].
  cbv beta. intros y (k & -> & Hk). exists k. split; [reflexivity | lia].
Qed.

Lemma writes_loop_cases lr u bs vs :
  Forall (eq lr)
         (flat_map (fun cb : varname * list op => map op_writes (snd cb))
                   (loop_cases lr u bs vs)).
Proof.
  revert u vs. induction bs as [|b bs IH]; intros u vs; [constructor|].
  destruct vs as [|v vs]; [constructor|].
  cbn [loop_cases flat_map snd map op_writes app].
  constructor; [reflexivity | apply IH].
Qed.

Lemma piecewise_decay_frame gs bs vs :
  frame (piecewise_decay gs bs vs) [Named "learning_rate"].
Proof.
  intros p out p' Htop Hc. open_program p.
  destruct (Nat.eq_dec (List.length vs) (S (List.length bs))) as [E|E].
  2: { unfold piecewise_decay in Hc.
       replace (Z.of_nat (List.length vs) - Z.of_nat (List.length bs) =? 1)%Z
         with false in Hc by (symmetry; apply Z.eqb_neq; lia).
       discriminate Hc. }
  destruct gs as [| x | g].
  1-2: unfold piecewise_decay in Hc;
       destruct (negb (Z.of_nat (List.length vs) - Z.of_nat (List.length bs)
                       =? 1)%Z); discriminate Hc.
  rewrite (piecewise_decay_builds g bs vs gb un st f E) in Hc.
  injection Hc as <- <-.
  apply frame_of_shape.
  - unfold persistables. cbn [startup].
    rewrite filter_app, map_app. reflexivity.
  - right. now left.
  - rewrite writes_app. apply Forall_app. split.
    + eapply Forall_impl;
        [|apply (writes_loop_ops g un true bs vs
                   (3 * List.length bs + un)); lia].
      cbv beta. intros y (k & -> & Hk). left. exists k.
      split; [reflexivity | lia].
    + cbn [writes flat_map stmt_writes op_writes app map].
      apply Forall_cons; [left; eexists; split; [reflexivity | lia] | ].
      rewrite app_nil_r. apply Forall_app. split.
      * eapply Forall_impl; [|apply writes_loop_cases].
        cbv beta. intros y <-. right. now left.
      * constructor; [right; now left | constructor].
Qed.

Lemma emitted_trans p p1 p2 e1 e2 :
  global_block p1 = global_block p ++ e1 ->
  global_block p2 = global_block p1 ++ e2 ->
  emitted p p2 = e1 ++ e2.
Proof.
  intros H1 H2. unfold emitted. rewrite H2, H1, <- app_assoc.
  rewrite skipn_app, skipn_all, Nat.sub_diag. reflexivity.
Qed.

(** A call with an empty frame is independent of any call after it whose
    frame holds no temporary, as long as the run of both is defined. *)
Lemma frame_independent c1 c2 globals p sc :
  frame c1 [] -> frame c2 globals ->
  (forall k, ~ In (Tmp k) globals) ->
  top_level p ->
  returns (first_of c1 c2) p sc <> None ->
  independent c1 c2 p sc.
Proof.
  intros F1 F2 Hg Htop Hdef.
  unfold independent, returns, run, first_of, bind, ret in *.
  destruct (c1 p) as [out1 p1|] eqn:E1; [|congruence].
  destruct (F1 p out1 p1 Htop E1)
    as (Hgb1 & Htop1 & _ & _ & (x & -> & Hx) & _ & _).
  destruct (c2 p1) as [out2 p2|] eqn:E2; [|congruence].
  destruct (F2 p1 out2 p2 Htop1 E2) as (Hgb2 & _ & _ & _ & _ & _ & Hsem).
  rewrite (emitted_trans p p1 p2 _ _ Hgb1 Hgb2) in *.
  rewrite exec_app in *.
  destruct (exec (emitted p p1) (start sc)) as [m1|]; [|congruence].
  destruct (exec (emitted p1 p2) m1) as [m2|] eqn:E; [|congruence].
  cbn [value_of]. rewrite (Hsem m1 m2 x E); [reflexivity | | ].
  - destruct Hx as [(k & -> & Hk)|[]]. cbn [known]. lia.
  - destruct Hx as [(k & -> & Hk)|[]]. apply Hg.
Qed.

(** The statements of [piecewise_decay], run from any state in which the
    step has a value: one [assign], to [learning_rate], of the selected
    value; the variables the program had, other than [learning_rate], keep
    their values. *)
Lemma piecewise_decay_exec g bs vs un m s :
  List.length vs = S (List.length bs) ->
  vars m g = Some (TFloat s) ->
  (forall k, (un <= k)%nat -> g <> Tmp k) ->
  let rate := Named "learning_rate" in
  let d := Tmp (3 * List.length bs + un) in
  exists m',
    exec (loop_ops g un true bs vs
            ++ [Op (FillConstant d (last vs 0) true);
                SwitchOp (loop_cases rate un bs vs) (Some [Assign d rate])])
         m = Some m' /\
    vars m' rate = Some (TFloat (Formula.piecewise s bs vs)) /\
    assigned m' = assigned m ++ [rate] /\
    (forall x, (forall k, (un <= k)%nat -> x <> Tmp k) -> x <> rate ->
               vars m' x = vars m x).
Proof.
  intros Hlen Hs Hfresh rate d. subst rate d.
  rewrite (exec_loop_ops g un true s) by assumption.
  rewrite exec_fill. cbn [exec exec_stmt].
  rewrite (exec_switch_loaded (Named "learning_rate")
             (Tmp (3 * List.length bs + un)) un s bs vs
             _ (loaded_write _ _ _ _ _ _ _ (Nat.le_refl _)
                  (loaded_loop_machine un s bs vs m))
             Hlen (vars_write_eq _ _ _)).
  eexists. split; [reflexivity|]. split; [apply vars_write_eq|]. split.
  - cbn [assigned write log_assign].
    destruct (loop_machine_logs un s bs vs m) as [_ ->]. reflexivity.
  - intros x Hx Hrate.
    rewrite vars_write_neq by exact Hrate. rewrite vars_log_assign.
    rewrite vars_write_neq by (apply Hx; lia).
    apply loop_machine_frame. exact Hx.
Qed.

(** Two calls of [piecewise_decay] in one program: they return the same
    variable, and after the run of both it holds the value the second call
    selects. *)
Lemma piecewise_decay_shared p sc g s bs vs bs2 vs2 :
  top_level p -> known p g ->
  sc g = Some (TFloat s) ->
  List.length vs = S (List.length bs) ->
  List.length vs2 = S (List.length bs2) ->
  g <> Named "learning_rate" ->
  let rate := PyVariable (Named "learning_rate") in
  let first := piecewise_decay (PyVariable g) bs vs in
  let second := piecewise_decay (PyVariable g) bs2 vs2 in
  (exists p1 p2, first p = Ok rate p1 /\ second p1 = Ok rate p2) /\
  returns (first_of first second) p sc
  = Some (Formula.piecewise s bs2 vs2).
Proof.
  intros Htop Hg Hs Hlen Hlen2 Hne rate first second.
  subst rate first second. open_program p.
  assert (Hfresh : forall k, (un <= k)%nat -> g <> Tmp k).
  { intros k Hk. eapply known_neq; [exact Hg | exact Hk]. }
  pose proof (piecewise_decay_builds g bs vs gb un st f Hlen) as E1.
  cbv zeta in E1.
  split.
  - eexists. eexists. split; [exact E1|].
    apply piecewise_decay_builds. exact Hlen2.
  - unfold returns, run, first_of, bind, ret. rewrite E1.
    rewrite (piecewise_decay_builds g bs2 vs2) by exact Hlen2. cbv zeta.
    rewrite <- app_assoc, emitted_app, exec_app.
    destruct (piecewise_decay_exec g bs vs un (start sc) s Hlen Hs Hfresh)
      as (m1 & Ex1 & _ & _ & Hkeep1).
    cbv zeta in Ex1. rewrite Ex1.
    assert (Hs1 : vars m1 g = Some (TFloat s)).
    { rewrite (Hkeep1 g Hfresh Hne). exact Hs. }
    destruct (piecewise_decay_exec g bs2 vs2
                (S (3 * List.length bs + un)) m1 s Hlen2 Hs1)
      as (m2 & Ex2 & Hval2 & _ & _).
    { intros k Hk. apply Hfresh. lia. }
    cbv zeta in Ex2. rewrite Ex2. cbn [value_of]. rewrite Hval2.
    reflexivity.
Qed.

(** C7, as the code has it.  Every decay function appends to the program
    and restores the builder's flags.  The four formula builders declare no
    persistable variable, write fresh temporaries only and return one of
    them, so that their result is independent of later calls.
    [piecewise_decay] declares the persistable variable [learning_rate] and
    returns that variable; every run executes one [assign], to that
    variable, and writes nothing else but fresh temporaries; two calls in
    one program return the same variable, which after the run of both holds
    the value the second call selects. *)
Theorem decay_builders_frame
    lr gs n r e pw staircase cycle bs vs bs2 vs2 p sc g s :
  top_level p -> known p g ->
  sc g = Some (TFloat s) ->
  List.length vs = S (List.length bs) ->
  List.length vs2 = S (List.length bs2) ->
  let rate := Named "learning_rate" in
  let first := piecewise_decay (PyVariable g) bs vs in
  let second := piecewise_decay (PyVariable g) bs2 vs2 in
  (frame (exponential_decay lr gs n r staircase) [] /\
   frame (natural_exp_decay lr gs n r staircase) [] /\
   frame (inverse_time_decay lr gs n r staircase) [] /\
   frame (polynomial_decay lr gs n e pw cycle) [] /\
   frame (piecewise_decay gs bs vs) [rate]) /\
  (forall c1 c2 globals p0 sc0,
      frame c1 [] -> frame c2 globals ->
      (forall k, ~ In (Tmp k) globals) ->
      top_level p0 ->
      returns (first_of c1 c2) p0 sc0 <> None ->
      independent c1 c2 p0 sc0) /\
  (exists p',
      first p = Ok (PyVariable rate) p' /\
      startup p' = startup p ++ [GlobalVar rate 0 true] /\
      persistables p' = persistables p ++ [rate]) /\
  (exists m,
      run first p sc = Some (PyVariable rate, m) /\
      assigned m = [rate] /\
      vars m rate = Some (TFloat (Formula.piecewise s bs vs))) /\
  (g <> rate ->
   (exists p1 p2,
       first p = Ok (PyVariable rate) p1 /\
       second p1 = Ok (PyVariable rate) p2) /\
   returns (first_of first second) p sc
   = Some (Formula.piecewise s bs2 vs2)).
Proof.
  intros Htop Hg Hs Hlen Hlen2 rate first second. subst rate first second.
  split.
  { split; [apply exponential_decay_frame|].
    split; [apply natural_exp_decay_frame|].
    split; [apply inverse_time_decay_frame|].
    split; [apply polynomial_decay_frame|].
    apply piecewise_decay_frame. }
  split; [intros c1 c2 globals p0 sc0; apply frame_independent|].
  split.
  { destruct Htop as [Hsb Hos]. destruct p as [gb un st f sb os].
    cbn [sub_block open_switch] in Hsb, Hos. subst.
    eexists. split; [apply piecewise_decay_builds; exact Hlen|].
    split; [reflexivity|].
    unfold persistables. cbn [startup].
    rewrite filter_app, map_app. reflexivity. }
  split.
  { destruct (piecewise_decay_run p sc g s bs vs Htop Hg Hs Hlen)
      as (m & Hrun & Hval & Hassign & _).
    exists m. repeat split; assumption. }
  intros Hne.
  apply (piecewise_decay_shared p sc g s bs vs bs2 vs2
           Htop Hg Hs Hlen Hlen2 Hne).
Qed.

Lemma less_than_true a b : a < b -> apply_cmp less_than a b = true.
Proof. intros H. unfold apply_cmp. destruct (Rlt_dec a b); [reflexivity | contradiction]. Qed.

Lemma less_than_false a b : b <= a -> apply_cmp less_than a b = false.
Proof. intros H. unfold apply_cmp. destruct (Rlt_dec a b); [lra | reflexivity]. Qed.

Lemma exec_switch_first c a b cases d t rest m :
  vars m c = Some (TBool true) -> vars m a = Some t ->
  exec (SwitchOp ((c, [Assign a b]) :: cases) d :: rest) m
  = exec rest (write b t (log_assign b m)).
Proof.
  intros Hc Ha. cbn [exec exec_stmt exec_switch]. rewrite Hc.
  cbn [exec_block exec_op]. now rewrite Ha.
Qed.

Lemma exec_switch_next c blk cases d rest m :
  vars m c = Some (TBool false) ->
  exec (SwitchOp ((c, blk) :: cases) d :: rest) m
  = exec (SwitchOp cases d :: rest) m.
Proof. intros Hc. cbn [exec exec_stmt exec_switch]. now rewrite Hc. Qed.

Lemma exec_switch_default a b t rest m :
  vars m a = Some t ->
  exec (SwitchOp [] (Some [Assign a b]) :: rest) m
  = exec rest (write b t (log_assign b m)).
Proof.
  intros Ha. cbn [exec exec_stmt exec_switch exec_block exec_op].
  now rewrite Ha.
Qed.

End DecayTheorems.

(** Rewrites the lookups of a goal. *)
Ltac look :=
  repeat first [ rewrite vars_write_eq
               | rewrite vars_write_neq by names_neq
               | rewrite vars_log_divisor
               | rewrite vars_log_assign ].

Ltac switch_step :=
  first [ erewrite exec_switch_first by lookup
        | erewrite exec_switch_next by lookup
        | erewrite exec_switch_default by lookup ].

(** ** The theorems at concrete inputs *)

Section Instances.

#[local] Existing Instance real_pow.

Lemma real_pow_1 pw : pow_kernel (PowKernel := real_pow) 1 pw = 1.
Proof.
  unfold pow_kernel, real_pow, Rpower. rewrite ln_1, Rmult_0_r. apply exp_0.
Qed.

Lemma increasing_10_20 : Formula.strictly_increasing [10; 20].
Proof.
  intros i j Hij. cbn [List.length] in Hij.
  assert (i = 0%nat) as -> by lia. assert (j = 1%nat) as -> by lia.
  cbn [nth]. lra.
Qed.

Lemma exponential_decay_formula_witness :
  returns (pk := real_pow)
          (exponential_decay (PyNum 1) (PyVariable (Named "global_step"))
                             (PyNum 10) (PyNum (1 / 2)) false)
          empty_program (scope_at (Named "global_step") 7)
  = Some (1 * real_pow (1 / 2) (7 / 10)).
Proof.
  apply (exponential_decay_formula (pk := real_pow) empty_program
           (scope_at (Named "global_step") 7) (PyNum 1)
           (Named "global_step") 1 7 10 (1 / 2)).
  - split; reflexivity.
  - exact I.
  - exact I.
  - reflexivity.
  - reflexivity.
Defined.

Lemma staircase_floors_exponent_witness :
  returns (pk := real_pow)
          (inverse_time_decay (PyNum 1) (PyVariable (Named "global_step"))
                              (PyNum 10) (PyNum (1 / 2)) true)
          empty_program (scope_at (Named "global_step") 25)
  = Some (Formula.inverse_time 1 (1 / 2) (Rfloor (25 / 10))).
Proof.
  apply (staircase_floors_exponent (pk := real_pow) empty_program
           (scope_at (Named "global_step") 25) (PyNum 1)
           (Named "global_step") 1 25 10 (1 / 2)
           (conj eq_refl eq_refl) I I eq_refl eq_refl).
Defined.

Lemma decay_validation_witness :
  raises_ValueError
    (exponential_decay (pk := real_pow) (PyNum 1) (PyNum 7) (PyNum 10)
                       (PyNum (1 / 2)) false empty_program)
  /\ raises_ValueError
       (piecewise_decay (PyVariable (Named "global_step")) [10; 20] [1; 2]
                        empty_program).
Proof.
  pose proof (decay_validation (pk := real_pow) (PyNum 1) (PyNum 7)
                (PyNum 10) (PyNum (1 / 2)) (PyNum 0) (PyNum 1) false false
                [10; 20] [1; 2] empty_program (conj eq_refl eq_refl))
    as (He & _ & _ & _ & _).
  pose proof (decay_validation (pk := real_pow) (PyNum 1)
                (PyVariable (Named "global_step"))
                (PyNum 10) (PyNum (1 / 2)) (PyNum 0) (PyNum 1) false false
                [10; 20] [1; 2] empty_program (conj eq_refl eq_refl))
    as (_ & _ & _ & _ & Hp).
  split.
  - apply He. reflexivity.
  - apply Hp. right. cbn [List.length]. lia.
Defined.

Lemma polynomial_decay_formula_witness :
  returns (pk := real_pow)
          (polynomial_decay (PyNum 1) (PyVariable (Named "global_step"))
                            (PyNum 10) (PyNum 0) (PyNum 2) false)
          empty_program (scope_at (Named "global_step") 25)
  = Some ((1 - 0) * real_pow (1 - Rmin 25 10 / 10) 2 + 0).
Proof.
  apply (polynomial_decay_formula (pk := real_pow) empty_program
           (scope_at (Named "global_step") 25) (PyNum 1)
           (Named "global_step") 1 25 10 0 2
           (conj eq_refl eq_refl) I I eq_refl eq_refl).
Defined.

(** C5 as stated fails at step 0: the second division of a cycling
    polynomial decay is by [decay_steps * 1], not by
    [decay_steps * ceil(0 / decay_steps)], which is 0. *)
Lemma polynomial_cycle_divisor_at_zero :
  divisions (pk := real_pow)
            (polynomial_decay (PyNum 1) (PyVariable (Named "global_step"))
                              (PyNum 10) (PyNum 0) (PyNum 2) true)
            empty_program (scope_at (Named "global_step") 0)
  = Some [10; 10 * 1]
  /\
  divisions (pk := real_pow)
            (polynomial_decay (PyNum 1) (PyVariable (Named "global_step"))
                              (PyNum 10) (PyNum 0) (PyNum 2) true)
            empty_program (scope_at (Named "global_step") 0)
  <> Some [10; 10 * Rceil (0 / 10)].
Proof.
  destruct (polynomial_cycle_run (pk := real_pow) empty_program
              (scope_at (Named "global_step") 0) (PyNum 1)
              (Named "global_step") 1 0 10 0 2
              (conj eq_refl eq_refl) I I eq_refl eq_refl)
    as (out & m & Hrun & _ & Hd & _).
  destruct (Req_dec_T 0 0) as [_|E]; [|contradiction].
  unfold divisions. rewrite Hrun, Hd. split; [reflexivity|].
  intros [= H]. replace (0 / 10) with 0 in H by lra.
  rewrite Rceil_0 in H. lra.
Qed.

Lemma divisors_are_nonzero_witness :
  divides_by (pk := real_pow)
             (inverse_time_decay (PyNum 1) (PyVariable (Named "global_step"))
                                 (PyNum 10) (PyNum (1 / 2)) false)
             empty_program (scope_at (Named "global_step") 7)
             [10; 1 + 1 / 2 * (7 / 10)].
Proof.
  apply (divisors_are_nonzero (pk := real_pow) empty_program
           (scope_at (Named "global_step") 7) (PyNum 1)
           (Named "global_step") 1 7 10 (1 / 2) 0 2 false
           (conj eq_refl eq_refl) I I eq_refl eq_refl); lra.
Defined.

Lemma polynomial_cycle_at_step_zero_witness :
  Rceil (0 / 10) = 0 /\
  exists out m,
    run (pk := real_pow)
        (polynomial_decay (PyNum 1) (PyVariable (Named "global_step"))
                          (PyNum 10) (PyNum 0) (PyNum 2) true)
        empty_program (scope_at (Named "global_step") 0) = Some (out, m) /\
    vars m (Tmp 2) = Some (TFloat 1) /\
    divisors m = [10; 10 * 1] /\
    10 * 1 <> 0 /\
    value_of m out = Some 1.
Proof.
  apply (polynomial_cycle_at_step_zero (pk := real_pow) empty_program
           (scope_at (Named "global_step") 0) (PyNum 1)
           (Named "global_step") 1 10 0 2
           (conj eq_refl eq_refl) I I eq_refl eq_refl).
  - lra.
  - apply real_pow_1.
Defined.

Lemma piecewise_decay_intervals_witness :
  returns (pk := real_pow)
          (piecewise_decay (PyVariable (Named "global_step")) [10; 20]
                           [1; 0.5; 0.1])
          empty_program (scope_at (Named "global_step") 15)
  = Some 0.5.
Proof.
  destruct (piecewise_decay_intervals (pk := real_pow) empty_program
              (scope_at (Named "global_step") 15) (Named "global_step") 15
              [10; 20] [1; 0.5; 0.1]
              (conj eq_refl eq_refl) I eq_refl eq_refl increasing_10_20)
    as (_ & Hmid & _).
  apply (Hmid 1%nat).
  - cbn [List.length]. lia.
  - cbn [nth Nat.sub]. lra.
Defined.

Lemma piecewise_decay_assigns_one_value_witness :
  exists m v,
    run (pk := real_pow)
        (piecewise_decay (PyVariable (Named "global_step")) [20; 10]
                         [1; 0.5; 0.1])
        empty_program (scope_at (Named "global_step") 15)
    = Some (PyVariable (Named "learning_rate"), m) /\
    assigned m = [Named "learning_rate"] /\
    vars m (Named "learning_rate") = Some (TFloat v) /\
    In v [1; 0.5; 0.1].
Proof.
  apply (piecewise_decay_assigns_one_value (pk := real_pow) empty_program
           (scope_at (Named "global_step") 15) (Named "global_step") 15
           [20; 10] [1; 0.5; 0.1] (conj eq_refl eq_refl) I eq_refl eq_refl).
Defined.

Lemma decay_builders_frame_witness :
  (exists p',
      piecewise_decay (PyVariable (Named "global_step")) [10] [1; 0.5]
                      empty_program
      = Ok (PyVariable (Named "learning_rate")) p' /\
      startup p' = [GlobalVar (Named "learning_rate") 0 true] /\
      persistables p' = [Named "learning_rate"]) /\
  (exists m,
      run (pk := real_pow)
          (piecewise_decay (PyVariable (Named "global_step")) [10] [1; 0.5])
          empty_program (scope_at (Named "global_step") 5)
      = Some (PyVariable (Named "learning_rate"), m) /\
      assigned m = [Named "learning_rate"] /\
      vars m (Named "learning_rate")
      = Some (TFloat (Formula.piecewise 5 [10] [1; 0.5]))) /\
  returns (pk := real_pow)
          (first_of
             (piecewise_decay (PyVariable (Named "global_step")) [10]
                              [1; 0.5])
             (piecewise_decay (PyVariable (Named "global_step")) [10]
                              [2; 3]))
          empty_program (scope_at (Named "global_step") 5)
  = Some (Formula.piecewise 5 [10] [2; 3]).
Proof.
  destruct (decay_builders_frame (pk := real_pow) (PyNum 1)
              (PyVariable (Named "global_step")) (PyNum 10) (PyNum (1 / 2))
              (PyNum 0) (PyNum 2) false false [10] [1; 0.5] [10] [2; 3]
              empty_program (scope_at (Named "global_step") 5)
              (Named "global_step") 5
              (conj eq_refl eq_refl) I eq_refl eq_refl eq_refl)
    as (_ & _ & Hdecl & Hrun & Hshare).
  split; [exact Hdecl|]. split; [exact Hrun|].
  apply Hshare. discriminate.
Defined.

Lemma piecewise_at_5 : Formula.piecewise 5 [10] [1; 0.5] = 1.
Proof.
  cbn [Formula.piecewise]. destruct (Rlt_dec 5 10); [reflexivity | lra].
Qed.

(** C7 as stated fails for [piecewise_decay]: two calls in one program share
    the variable [learning_rate], so that the result of the first call, 1 at
    step 5, holds 2 once the second call is there. *)
Lemma piecewise_decay_calls_interfere :
  returns (pk := real_pow)
          (piecewise_decay (PyVariable (Named "global_step")) [10] [1; 0.5])
          empty_program (scope_at (Named "global_step") 5)
  = Some 1 /\
  returns (pk := real_pow)
          (first_of
             (piecewise_decay (PyVariable (Named "global_step")) [10]
                              [1; 0.5])
             (piecewise_decay (PyVariable (Named "global_step")) [10]
                              [2; 3]))
          empty_program (scope_at (Named "global_step") 5)
  = Some 2 /\
  ~ independent (pk := real_pow)
      (piecewise_decay (PyVariable (Named "global_step")) [10] [1; 0.5])
      (piecewise_decay (PyVariable (Named "global_step")) [10] [2; 3])
      empty_program (scope_at (Named "global_step") 5).
Proof.
  assert (H1 : returns (pk := real_pow)
                 (piecewise_decay (PyVariable (Named "global_step")) [10]
                                  [1; 0.5])
                 empty_program (scope_at (Named "global_step") 5) = Some 1).
  { destruct (piecewise_decay_run (pk := real_pow) empty_program
                (scope_at (Named "global_step") 5)
                (Named "global_step") 5 [10] [1; 0.5])
      as (m & Hrun & Hval & _);
      [exact (conj eq_refl eq_refl) | exact I | reflexivity | reflexivity |].
    unfold returns. rewrite Hrun. cbn [value_of].
    rewrite Hval, piecewise_at_5. reflexivity. }
  assert (H2 : returns (pk := real_pow)
                 (first_of
                    (piecewise_decay (PyVariable (Named "global_step")) [10]
                                     [1; 0.5])
                    (piecewise_decay (PyVariable (Named "global_step")) [10]
                                     [2; 3]))
                 empty_program (scope_at (Named "global_step") 5) = Some 2).
  { unfold returns, run, first_of, bind, ret, empty_program.
    rewrite piecewise_decay_builds by reflexivity. cbv zeta.
    rewrite piecewise_decay_builds by reflexivity. cbv zeta.
    unfold emitted.
    cbn [global_block List.length skipn app loop_ops loop_cases last
         Nat.mul Nat.add].
    repeat first [exec_step | switch_step | rewrite less_than_true by lra].
    cbn [exec value_of]. look. reflexivity. }
  split; [exact H1|]. split; [exact H2|].
  unfold independent. rewrite H1, H2. intros [= H]. lra.
Qed.

End Instances.

(** ** Further properties of the schedules *)

Section ScheduleProperties.

Context {pk : PowKernel}.

(** The values of the three exponent-based schedules, for both settings of
    [staircase]. *)
Lemma exponent_decay_returns p sc learning_rate g lr s n r
    (staircase : bool) :
  top_level p -> known p g -> known_obj p learning_rate ->
  sc g = Some (TFloat s) ->
  value_of (start sc) learning_rate = Some lr ->
  let x := if staircase then Rfloor (s / n) else s / n in
  let call f :=
    returns (f learning_rate (PyVariable g) (PyNum n) (PyNum r) staircase)
            p sc in
  call exponential_decay = Some (lr * pow_kernel r x) /\
  call natural_exp_decay = Some (lr * Rtrigo_def.exp (-1 * r * x)) /\
  call inverse_time_decay = Some (lr / (1 + r * x)).
Proof.
  intros Htop Hg Hlr Hs Hv x call. subst x call. cbv beta.
  open_program p. open_rate learning_rate Hv.
  - destruct staircase; repeat split; run_formula.
  - apply value_of_variable in Hv. cbn [known_obj] in Hlr.
    destruct staircase; repeat split; run_formula.
Qed.

Lemma quotient_between (k s n : R) :
  0 < n -> k * n <= s < (k + 1) * n -> k <= s / n < k + 1.
Proof.
  intros Hn [Hlo Hhi].
  assert (Hs : s = s / n * n) by (field; lra).
  split.
  - apply Rmult_le_reg_r with n; [exact Hn | lra].
  - apply Rmult_lt_reg_r with n; [exact Hn | lra].
Qed.

Lemma Rfloor_period (k : Z) s n :
  0 < n -> IZR k * n <= s < (IZR k + 1) * n -> Rfloor (s / n) = IZR k.
Proof.
  intros Hn Hs. unfold Rfloor. f_equal. apply Zfloor_eq.
  apply quotient_between; assumption.
Qed.

(** With staircase the rate is constant on every period of [decay_steps]
    steps: on the period number [k], from [k * decay_steps] up to
    [(k + 1) * decay_steps], each schedule returns its formula at [k]. *)
Theorem staircase_constant_on_period p sc learning_rate g lr s n r (k : Z) :
  top_level p -> known p g -> known_obj p learning_rate ->
  sc g = Some (TFloat s) ->
  value_of (start sc) learning_rate = Some lr ->
  0 < n ->
  IZR k * n <= s < (IZR k + 1) * n ->
  let call f :=
    returns (f learning_rate (PyVariable g) (PyNum n) (PyNum r) true) p sc in
  call exponential_decay = Some (lr * pow_kernel r (IZR k)) /\
  call natural_exp_decay = Some (lr * Rtrigo_def.exp (-1 * r * IZR k)) /\
  call inverse_time_decay = Some (lr / (1 + r * IZR k)).
Proof.
  intros Htop Hg Hlr Hs Hv Hn Hk call. subst call. cbv beta.
  pose proof (exponent_decay_returns p sc learning_rate g lr s n r true
                Htop Hg Hlr Hs Hv) as H.
  cbv zeta in H. rewrite (Rfloor_period k s n Hn Hk) in H. exact H.
Qed.

Lemma Rfloor_le x y : x <= y -> Rfloor x <= Rfloor y.
Proof. intros H. unfold Rfloor. apply IZR_le. apply Zfloor_le. exact H. Qed.

Lemma quotient_le s1 s2 n : 0 < n -> s1 <= s2 -> s1 / n <= s2 / n.
Proof.
  intros Hn H. unfold Rdiv. apply Rmult_le_compat_r; [|exact H].
  left. apply Rinv_0_lt_compat. exact Hn.
Qed.

(** The exponent of a schedule grows with the step and is not negative. *)
Lemma exponent_monotone (staircase : bool) s1 s2 n :
  0 < n -> 0 <= s1 <= s2 ->
  let x1 := if staircase then Rfloor (s1 / n) else s1 / n in
  let x2 := if staircase then Rfloor (s2 / n) else s2 / n in
  0 <= x1 <= x2.
Proof.
  intros Hn [H0 H12] x1 x2. subst x1 x2.
  pose proof (Rdiv_nonneg s1 n H0 Hn) as Hq.
  pose proof (quotient_le s1 s2 n Hn H12) as Hle.
  destruct staircase; split; try assumption.
  - apply Rfloor_nonneg. exact Hq.
  - apply Rfloor_le. exact Hle.
Qed.

Lemma exp_le x y : x <= y -> Rtrigo_def.exp x <= Rtrigo_def.exp y.
Proof.
  intros [H | ->]; [left; apply exp_increasing; exact H | right; reflexivity].
Qed.

(** [inverse_time_decay] never raises the rate: for a learning rate and a
    decay rate that are not negative and [decay_steps > 0], the value at a
    later step is at most the value at an earlier one, and both lie between
    0 and the learning rate. *)
Theorem inverse_time_decay_monotone p sc1 sc2 learning_rate g lr s1 s2 n r
    (staircase : bool) :
  top_level p -> known p g -> known_obj p learning_rate ->
  sc1 g = Some (TFloat s1) -> sc2 g = Some (TFloat s2) ->
  value_of (start sc1) learning_rate = Some lr ->
  value_of (start sc2) learning_rate = Some lr ->
  0 <= lr -> 0 <= r -> 0 < n -> 0 <= s1 <= s2 ->
  let c := inverse_time_decay learning_rate (PyVariable g) (PyNum n)
                              (PyNum r) staircase in
  exists v1 v2,
    returns c p sc1 = Some v1 /\ returns c p sc2 = Some v2 /\
    0 <= v2 <= v1 /\ v1 <= lr.
Proof.
  intros Htop Hg Hlr Hs1 Hs2 Hv1 Hv2 Hlr0 Hr Hn Hs c. subst c.
  pose proof (exponent_decay_returns p sc1 learning_rate g lr s1 n r
                staircase Htop Hg Hlr Hs1 Hv1) as (_ & _ & H1).
  pose proof (exponent_decay_returns p sc2 learning_rate g lr s2 n r
                staircase Htop Hg Hlr Hs2 Hv2) as (_ & _ & H2).
  pose proof (exponent_monotone staircase s1 s2 n Hn Hs) as Hx.
  cbv zeta in H1, H2, Hx.
  set (x1 := if staircase then Rfloor (s1 / n) else s1 / n) in *.
  set (x2 := if staircase then Rfloor (s2 / n) else s2 / n) in *.
  exists (lr / (1 + r * x1)), (lr / (1 + r * x2)).
  split; [exact H1|]. split; [exact H2|].
  destruct Hx as [Hx1 Hx12].
  assert (Hd1 : 1 <= 1 + r * x1)
    by (pose proof (Rmult_le_pos r x1 Hr Hx1); lra).
  assert (Hd12 : 1 + r * x1 <= 1 + r * x2).
  { apply Rplus_le_compat_l. apply Rmult_le_compat_l; assumption. }
  assert (Hi2 : 0 < / (1 + r * x2)) by (apply Rinv_0_lt_compat; lra).
  assert (Hi12 : / (1 + r * x2) <= / (1 + r * x1))
    by (apply Rinv_le_contravar; lra).
  assert (Hi1 : / (1 + r * x1) <= 1).
  { rewrite <- Rinv_1. apply Rinv_le_contravar; lra. }
  unfold Rdiv. repeat split.
  - apply Rmult_le_pos; lra.
  - apply Rmult_le_compat_l; assumption.
  - rewrite <- (Rmult_1_r lr) at 2. apply Rmult_le_compat_l; assumption.
Qed.

(** [natural_exp_decay] never raises the rate either, under the same
    conditions. *)
Theorem natural_exp_decay_monotone p sc1 sc2 learning_rate g lr s1 s2 n r
    (staircase : bool) :
  top_level p -> known p g -> known_obj p learning_rate ->
  sc1 g = Some (TFloat s1) -> sc2 g = Some (TFloat s2) ->
  value_of (start sc1) learning_rate = Some lr ->
  value_of (start sc2) learning_rate = Some lr ->
  0 <= lr -> 0 <= r -> 0 < n -> 0 <= s1 <= s2 ->
  let c := natural_exp_decay learning_rate (PyVariable g) (PyNum n)
                             (PyNum r) staircase in
  exists v1 v2,
    returns c p sc1 = Some v1 /\ returns c p sc2 = Some v2 /\
    0 <= v2 <= v1 /\ v1 <= lr.
Proof.
  intros Htop Hg Hlr Hs1 Hs2 Hv1 Hv2 Hlr0 Hr Hn Hs c. subst c.
  pose proof (exponent_decay_returns p sc1 learning_rate g lr s1 n r
                staircase Htop Hg Hlr Hs1 Hv1) as (_ & H1 & _).
  pose proof (exponent_decay_returns p sc2 learning_rate g lr s2 n r
                staircase Htop Hg Hlr Hs2 Hv2) as (_ & H2 & _).
  pose proof (exponent_monotone staircase s1 s2 n Hn Hs) as Hx.
  cbv zeta in H1, H2, Hx.
  set (x1 := if staircase then Rfloor (s1 / n) else s1 / n) in *.
  set (x2 := if staircase then Rfloor (s2 / n) else s2 / n) in *.
  exists (lr * Rtrigo_def.exp (-1 * r * x1)),
         (lr * Rtrigo_def.exp (-1 * r * x2)).
  split; [exact H1|]. split; [exact H2|].
  destruct Hx as [Hx1 Hx12].
  assert (Hrx1 : 0 <= r * x1) by (apply Rmult_le_pos; assumption).
  assert (Hrx : r * x1 <= r * x2)
    by (apply Rmult_le_compat_l; assumption).
  assert (He12 : Rtrigo_def.exp (-1 * r * x2) <= Rtrigo_def.exp (-1 * r * x1))
    by (apply exp_le; lra).
  assert (He1 : Rtrigo_def.exp (-1 * r * x1) <= 1)
    by (rewrite <- exp_0; apply exp_le; lra).
  pose proof (exp_pos (-1 * r * x2)) as Hpos.
  repeat split.
  - apply Rmult_le_pos; lra.
  - apply Rmult_le_compat_l; assumption.
  - rewrite <- (Rmult_1_r lr) at 2. apply Rmult_le_compat_l; assumption.
Qed.

(** The value of [polynomial_decay] for both settings of [cycle], from the
    run of its graph. *)
Lemma polynomial_decay_returns p sc learning_rate g lr s n e pw :
  top_level p -> known p g -> known_obj p learning_rate ->
  sc g = Some (TFloat s) ->
  value_of (start sc) learning_rate = Some lr ->
  let call cycle :=
    returns (polynomial_decay learning_rate (PyVariable g) (PyNum n)
                              (PyNum e) (PyNum pw) cycle) p sc in
  let mult := if Req_dec_T s 0 then 1 else Rceil (s / n) in
  call false = Some (Formula.polynomial lr e pw (Rmin s n) n) /\
  call true = Some (Formula.polynomial lr e pw s (n * mult)).
Proof.
  intros Htop Hg Hlr Hs Hv call mult. subst call mult. cbv beta.
  destruct (polynomial_clamp_run p sc learning_rate g lr s n e pw
              Htop Hg Hlr Hs Hv) as (o1 & m1 & Hr1 & Hv1 & _).
  destruct (polynomial_cycle_run p sc learning_rate g lr s n e pw
              Htop Hg Hlr Hs Hv) as (o2 & m2 & Hr2 & Hv2 & _).
  unfold returns. rewrite Hr1, Hr2. split; assumption.
Qed.

(** Without cycle, [polynomial_decay] starts at the value of its formula
    for the base 1 and, from [decay_steps] on, stays at the value for the
    base 0, whatever the step: [learning_rate] and [end_learning_rate] when
    the power function maps 1 to 1 and 0 to 0. *)
Theorem polynomial_decay_endpoints p sc learning_rate g lr s n e pw :
  top_level p -> known p g -> known_obj p learning_rate ->
  sc g = Some (TFloat s) ->
  value_of (start sc) learning_rate = Some lr ->
  0 < n ->
  let result :=
    returns (polynomial_decay learning_rate (PyVariable g) (PyNum n)
                              (PyNum e) (PyNum pw) false) p sc in
  (s = 0 -> result = Some ((lr - e) * pow_kernel 1 pw + e)) /\
  (n <= s -> result = Some ((lr - e) * pow_kernel 0 pw + e)) /\
  (s = 0 -> pow_kernel 1 pw = 1 -> result = Some lr) /\
  (n <= s -> pow_kernel 0 pw = 0 -> result = Some e).
Proof.
  intros Htop Hg Hlr Hs Hv Hn result. subst result.
  destruct (polynomial_decay_returns p sc learning_rate g lr s n e pw
              Htop Hg Hlr Hs Hv) as (H & _).
  rewrite H. unfold Formula.polynomial.
  assert (Hstart : s = 0 -> 1 - Rmin s n / n = 1).
  { intros ->. rewrite Rmin_left by lra. unfold Rdiv. ring. }
  assert (Hend : n <= s -> 1 - Rmin s n / n = 0).
  { intros Hle. rewrite Rmin_right by exact Hle. field. lra. }
  repeat split.
  - intros H0. rewrite (Hstart H0). reflexivity.
  - intros Hle. rewrite (Hend Hle). reflexivity.
  - intros H0 Hp. rewrite (Hstart H0), Hp. f_equal. ring.
  - intros Hle Hp. rewrite (Hend Hle), Hp. f_equal. ring.
Qed.

Lemma Rceil_ge x : x <= Rceil x.
Proof. unfold Rceil. apply (Zceil_bound x). Qed.

(** The base [polynomial_decay] raises to [power] lies between 0 and 1 for
    every step that is not negative, with and without cycle: the power of a
    negative number is never asked for. *)
Theorem polynomial_decay_base_in_unit_interval
    p sc learning_rate g lr s n e pw (cycle : bool) :
  top_level p -> known p g -> known_obj p learning_rate ->
  sc g = Some (TFloat s) ->
  value_of (start sc) learning_rate = Some lr ->
  0 < n -> 0 <= s ->
  exists base,
    0 <= base <= 1 /\
    returns (polynomial_decay learning_rate (PyVariable g) (PyNum n)
                              (PyNum e) (PyNum pw) cycle) p sc
    = Some ((lr - e) * pow_kernel base pw + e).
Proof.
  intros Htop Hg Hlr Hs Hv Hn Hs0.
  destruct (polynomial_decay_returns p sc learning_rate g lr s n e pw
              Htop Hg Hlr Hs Hv) as (Hclamp & Hcycle).
  assert (Hunit : forall a d, 0 <= a <= d -> 0 < d -> 0 <= 1 - a / d <= 1).
  { intros a d [Ha Had] Hd.
    assert (0 <= a / d) by (apply Rdiv_nonneg; assumption).
    assert (a / d <= 1).
    { apply Rmult_le_reg_r with d; [exact Hd|].
      replace (a / d * d) with a by (field; lra). lra. }
    lra. }
  destruct cycle.
  - rewrite Hcycle. unfold Formula.polynomial.
    eexists. split; [|reflexivity].
    apply Hunit.
    + destruct (Req_dec_T s 0) as [E|E]; [lra|].
      assert (Hq : 0 < s / n) by (apply Rdiv_pos; lra).
      pose proof (Rceil_ge (s / n)) as Hc.
      assert (s = s / n * n) by (field; lra).
      split; [exact Hs0 | nra].
    + destruct (Req_dec_T s 0) as [E|E]; [lra|].
      assert (Hq : 0 < s / n) by (apply Rdiv_pos; lra).
      pose proof (Rceil_ge (s / n)) as Hc. nra.
  - rewrite Hclamp. unfold Formula.polynomial.
    eexists. split; [|reflexivity].
    apply Hunit; [|exact Hn].
    split; [apply Rmin_glb; lra | apply Rmin_r].
Qed.

Lemma Rceil_period (k : Z) s n :
  0 < n -> (IZR k - 1) * n < s <= IZR k * n -> Rceil (s / n) = IZR k.
Proof.
  intros Hn [Hlo Hhi]. unfold Rceil. f_equal. apply Zceil_eq.
  assert (Hs : s = s / n * n) by (field; lra).
  split.
  - apply Rmult_lt_reg_r with n; [exact Hn | lra].
  - apply Rmult_le_reg_r with n; [exact Hn | lra].
Qed.

(** With cycle, [polynomial_decay] decays over a horizon that is stretched
    to the next multiple of [decay_steps]: on the cycle number [k >= 1],
    after [(k - 1) * decay_steps] and up to [k * decay_steps], the divisor is
    [decay_steps * k], and at the end of the cycle the base is 0. *)
Theorem polynomial_decay_cycle_horizon
    p sc learning_rate g lr s n e pw (k : Z) :
  top_level p -> known p g -> known_obj p learning_rate ->
  sc g = Some (TFloat s) ->
  value_of (start sc) learning_rate = Some lr ->
  0 < n -> (1 <= k)%Z ->
  (IZR k - 1) * n < s <= IZR k * n ->
  let c := polynomial_decay learning_rate (PyVariable g) (PyNum n)
                            (PyNum e) (PyNum pw) true in
  returns c p sc
  = Some ((lr - e) * pow_kernel (1 - s / (n * IZR k)) pw + e) /\
  divisions c p sc = Some [n; n * IZR k] /\
  (s = IZR k * n ->
   returns c p sc = Some ((lr - e) * pow_kernel 0 pw + e)).
Proof.
  intros Htop Hg Hlr Hs Hv Hn Hk Hper c. subst c.
  destruct (polynomial_cycle_run p sc learning_rate g lr s n e pw
              Htop Hg Hlr Hs Hv) as (out & m & Hrun & Hval & Hd & _).
  assert (Hk1 : 1 <= IZR k) by (apply IZR_le in Hk; exact Hk).
  assert (Hpos : 0 < s) by nra.
  destruct (Req_dec_T s 0) as [E|_]; [lra|].
  rewrite (Rceil_period k s n Hn Hper) in Hval, Hd.
  unfold returns, divisions. rewrite Hrun, Hval, Hd.
  unfold Formula.polynomial. repeat split.
  intros ->. replace (1 - IZR k * n / (n * IZR k)) with 0 by (field; lra).
  reflexivity.
Qed.

(** With the default power 1, a power function that is the identity at
    power 1, and no cycle, the decay is linear up to [decay_steps]: at step
    [s] the rate has moved the fraction [s / decay_steps] of the way from
    [learning_rate] to [end_learning_rate]. *)
Theorem polynomial_decay_linear p sc learning_rate g lr s n e :
  top_level p -> known p g -> known_obj p learning_rate ->
  sc g = Some (TFloat s) ->
  value_of (start sc) learning_rate = Some lr ->
  (forall b, 0 < b -> pow_kernel b 1 = b) ->
  0 <= s < n ->
  returns (polynomial_decay learning_rate (PyVariable g) (PyNum n)
                            (PyNum e) (PyNum 1) false) p sc
  = Some (lr + (e - lr) * (s / n)).
Proof.
  intros Htop Hg Hlr Hs Hv Hpow [Hs0 Hsn].
  destruct (polynomial_decay_returns p sc learning_rate g lr s n e 1
              Htop Hg Hlr Hs Hv) as (H & _).
  rewrite H. unfold Formula.polynomial.
  rewrite Rmin_left by lra.
  assert (Hq : s / n < 1).
  { apply Rmult_lt_reg_r with n; [lra|].
    replace (s / n * n) with s by (field; lra). lra. }
  rewrite Hpow by lra. f_equal. ring.
Qed.

(** The value [piecewise_decay] returns, from the run of its graph. *)
Lemma piecewise_decay_returns p sc g s boundaries values :
  top_level p -> known p g ->
  sc g = Some (TFloat s) ->
  List.length values = S (List.length boundaries) ->
  returns (piecewise_decay (PyVariable g) boundaries values) p sc
  = Some (Formula.piecewise s boundaries values).
Proof.
  intros Htop Hg Hs Hlen.
  destruct (piecewise_decay_run p sc g s boundaries values Htop Hg Hs Hlen)
    as (m & Hrun & Hval & _).
  unfold returns. rewrite Hrun. cbn [value_of]. rewrite Hval. reflexivity.
Qed.

(** For boundaries in any order, [piecewise_decay] returns the value at the
    first index whose boundary is above the step: [values[i]] when the step
    has reached every boundary before index [i] and is below
    [boundaries[i]], and the last value when it has reached them all. *)
Theorem piecewise_decay_first_match p sc g s boundaries values i :
  top_level p -> known p g ->
  sc g = Some (TFloat s) ->
  List.length values = S (List.length boundaries) ->
  (i <= List.length boundaries)%nat ->
  (forall j, (j < i)%nat -> nth j boundaries 0 <= s) ->
  ((i < List.length boundaries)%nat -> s < nth i boundaries 0) ->
  returns (piecewise_decay (PyVariable g) boundaries values) p sc
  = Some (nth i values 0).
Proof.
  intros Htop Hg Hs Hlen Hi Hbefore Hat.
  rewrite (piecewise_decay_returns p sc g s boundaries values Htop Hg Hs Hlen).
  f_equal.
  destruct (Nat.eq_dec i (List.length boundaries)) as [->|Hne].
  - apply piecewise_beyond; [exact Hlen|].
    intros j Hj Hlt. specialize (Hbefore j Hj). lra.
  - apply piecewise_at; [exact Hlen | lia | | apply Hat; lia].
    intros j Hj Hlt. specialize (Hbefore j Hj). lra.
Qed.

(** When no boundary is above the first one, as for boundaries given in
    descending order, only two values are ever returned: the first value
    below the first boundary and the last value from it on. *)
Theorem piecewise_decay_descending p sc g s boundaries values :
  top_level p -> known p g ->
  sc g = Some (TFloat s) ->
  List.length values = S (List.length boundaries) ->
  (0 < List.length boundaries)%nat ->
  (forall i, (i < List.length boundaries)%nat ->
             nth i boundaries 0 <= nth 0 boundaries 0) ->
  returns (piecewise_decay (PyVariable g) boundaries values) p sc
  = Some (if Rlt_dec s (nth 0 boundaries 0)
          then nth 0 values 0
          else nth (List.length boundaries) values 0).
Proof.
  intros Htop Hg Hs Hlen Hpos Hdesc.
  rewrite (piecewise_decay_returns p sc g s boundaries values Htop Hg Hs Hlen).
  f_equal. destruct (Rlt_dec s (nth 0 boundaries 0)) as [Hlt|Hge].
  - apply piecewise_at; [exact Hlen | exact Hpos | intros j Hj; lia | exact Hlt].
  - apply piecewise_beyond; [exact Hlen|].
    intros j Hj Hlt. specialize (Hdesc j Hj). lra.
Qed.

(** The run of [piecewise_decay] leaves the step counter as it was, unless
    the counter is itself the variable named [learning_rate]: then the
    counter holds the selected rate after the run, and the step is lost. *)
Theorem piecewise_decay_step_after_run p sc g s boundaries values :
  top_level p -> known p g ->
  sc g = Some (TFloat s) ->
  List.length values = S (List.length boundaries) ->
  exists m,
    run (piecewise_decay (PyVariable g) boundaries values) p sc
    = Some (PyVariable (Named "learning_rate"), m) /\
    (g <> Named "learning_rate" -> vars m g = Some (TFloat s)) /\
    (g = Named "learning_rate" ->
     vars m g = Some (TFloat (Formula.piecewise s boundaries values))).
Proof.
  intros Htop Hg Hs Hlen.
  destruct (piecewise_decay_run p sc g s boundaries values Htop Hg Hs Hlen)
    as (m & Hrun & Hval & _).
  exists m. split; [exact Hrun|]. split.
  - intros Hne. unfold run in Hrun.
    destruct (piecewise_decay (PyVariable g) boundaries values p)
      as [out p'|] eqn:E; [|discriminate].
    destruct (exec (emitted p p') (start sc)) as [m'|] eqn:Ex;
      [|discriminate].
    injection Hrun as _ ->.
    destruct (piecewise_decay_frame (PyVariable g) boundaries values
                p out p' Htop E) as (_ & _ & _ & _ & _ & _ & Hsem).
    rewrite (Hsem (start sc) m g Ex Hg); [exact Hs|].
    intros [Hin|[]]. apply Hne. symmetry. exact Hin.
  - intros ->. exact Hval.
Qed.

Import GraphShape.

Lemma loop_ops_on_cpu g u bs vs :
  forallb stmt_on_cpu (loop_ops g u true bs vs) = true.
Proof.
  revert u vs. induction bs as [|b bs IH]; intros u vs; [reflexivity|].
  destruct vs as [|v vs]; [reflexivity|].
  cbn [loop_ops forallb stmt_on_cpu op_on_cpu andb]. apply IH.
Qed.

Lemma loop_cases_on_cpu lr u bs vs :
  forallb (fun cb : varname * list op => forallb op_on_cpu (snd cb))
          (loop_cases lr u bs vs) = true.
Proof.
  revert u vs. induction bs as [|b bs IH]; intros u vs; [reflexivity|].
  destruct vs as [|v vs]; [reflexivity|].
  cbn [loop_cases forallb snd op_on_cpu andb]. apply IH.
Qed.

(** Settles where the constants of a call of fixed shape are filled. *)
Ltac on_cpu_case H :=
  revert H; compute_builder; intros H;
  first
    [ discriminate H
    | injection H as <- <-;
      rewrite <- ?app_assoc; cbn [app]; rewrite emitted_app; reflexivity ].

(** Every constant a decay function creates is filled on the CPU, whatever
    the [init_on_cpu] flag was before the call: all of them are created
    inside the [with init_on_cpu()] block. *)
Theorem decay_constants_on_cpu lr gs n r e pw staircase cycle bs vs p out p' :
  top_level p ->
  let emits c := c p = Ok out p' -> constants_on_cpu (emitted p p') = true in
  emits (exponential_decay lr gs n r staircase) /\
  emits (natural_exp_decay lr gs n r staircase) /\
  emits (inverse_time_decay lr gs n r staircase) /\
  emits (polynomial_decay lr gs n e pw cycle) /\
  emits (piecewise_decay gs bs vs).
Proof.
  intros Htop emits. subst emits. cbv beta. open_program p.
  split; [|split; [|split; [|split]]]; intros Hc.
  1-3: destruct gs; [discriminate Hc | discriminate Hc |];
       destruct lr, n, r, staircase; on_cpu_case Hc.
  1: destruct gs; [discriminate Hc | discriminate Hc |];
     destruct lr, n, e, pw, cycle; on_cpu_case Hc.
  destruct (Nat.eq_dec (List.length vs) (S (List.length bs))) as [E|E].
  2: { unfold piecewise_decay in Hc.
       replace (Z.of_nat (List.length vs) - Z.of_nat (List.length bs) =? 1)%Z
         with false in Hc by (symmetry; apply Z.eqb_neq; lia).
       discriminate Hc. }
  destruct gs as [| x | g].
  1-2: unfold piecewise_decay in Hc;
       destruct (negb (Z.of_nat (List.length vs) - Z.of_nat (List.length bs)
                       =? 1)%Z); discriminate Hc.
  rewrite (piecewise_decay_builds g bs vs gb un st f E) in Hc.
  injection Hc as <- <-. rewrite emitted_app.
  unfold constants_on_cpu. rewrite forallb_app, loop_ops_on_cpu.
  cbn [forallb stmt_on_cpu op_on_cpu andb].
  rewrite loop_cases_on_cpu. reflexivity.
Qed.

(** The graph of [exponential_decay] without staircase, run from any state
    in which the step and the learning rate have a value. *)
Lemma exponential_decay_exec p learning_rate g n r :
  top_level p -> known p g -> known_obj p learning_rate ->
  learning_rate <> PyNone ->
  exists out p',
    exponential_decay learning_rate (PyVariable g) (PyNum n) (PyNum r) false p
    = Ok (PyVariable out) p' /\
    global_block p' = global_block p ++ emitted p p' /\
    forall m s lr,
      vars m g = Some (TFloat s) ->
      value_of m learning_rate = Some lr ->
      exists m',
        exec (emitted p p') m = Some m' /\
        vars m' out = Some (TFloat (lr * pow_kernel r (s / n))).
Proof.
  intros Htop Hg Hlr Hnone. open_program p.
  destruct learning_rate as [| x | v]; [contradiction | |].
  - build. do 2 eexists. split; [reflexivity|].
    cbn [global_block]. rewrite emitted_app. split; [reflexivity|].
    intros m s lr Hs Hv. cbn [value_of] in Hv. injection Hv as ->.
    repeat exec_step. cbn [exec]. eexists. split; [reflexivity | lookup].
  - cbn [known_obj] in Hlr. build. do 2 eexists. split; [reflexivity|].
    cbn [global_block]. rewrite emitted_app. split; [reflexivity|].
    intros m s lr Hs Hv. cbn [value_of] in Hv.
    apply value_of_variable in Hv.
    repeat exec_step. cbn [exec]. eexists. split; [reflexivity | lookup].
Qed.

(** Schedules chain: [exponential_decay] called on the result of an earlier
    schedule of the same program returns that schedule's value times
    [decay_rate ^ (global_step / decay_steps)], as long as the earlier
    schedule does not write the step counter. *)
Theorem exponential_decay_of_schedule c1 globals p sc gname s n r lr1 :
  frame c1 globals ->
  (forall k, ~ In (Tmp k) globals) ->
  ~ In (Named gname) globals ->
  top_level p ->
  sc (Named gname) = Some (TFloat s) ->
  returns c1 p sc = Some lr1 ->
  returns (bind c1 (fun rate =>
             exponential_decay rate (PyVariable (Named gname)) (PyNum n)
                               (PyNum r) false)) p sc
  = Some (lr1 * pow_kernel r (s / n)).
Proof.
  intros Hf Hglob Hg Htop Hs Hret.
  unfold returns, run in Hret.
  destruct (c1 p) as [out1 p1|] eqn:E1; [|discriminate].
  destruct (Hf p out1 p1 Htop E1)
    as (Hgb1 & Htop1 & _ & _ & (x & -> & Hx) & _ & Hsem).
  destruct (exec (emitted p p1) (start sc)) as [m1|] eqn:Ex1; [|discriminate].
  assert (Hkx : known p1 x).
  { destruct Hx as [(k & -> & Hk)|Hin]; [cbn [known]; lia|].
    destruct x as [nm|k]; [exact I | exfalso; apply (Hglob k Hin)]. }
  destruct (exponential_decay_exec p1 (PyVariable x) (Named gname) n r
              Htop1 I Hkx) as (out & p2 & E2 & Hgb2 & Hexec);
    [discriminate|].
  assert (Hg1 : vars m1 (Named gname) = Some (TFloat s)).
  { rewrite (Hsem (start sc) m1 (Named gname) Ex1 I Hg). exact Hs. }
  destruct (Hexec m1 s lr1 Hg1 Hret) as (m2 & Ex2 & Hout).
  unfold returns, run, bind. rewrite E1, E2.
  rewrite (emitted_trans p p1 p2 _ _ Hgb1 Hgb2), exec_app, Ex1, Ex2.
  cbn [value_of]. rewrite Hout. reflexivity.
Qed.

End ScheduleProperties.

(** ** The further properties at concrete inputs, and with the real power *)

Section ScheduleInstances.

#[local] Existing Instance real_pow.

(** With the power function of the reals and a positive decay rate,
    [exponential_decay] is [natural_exp_decay] with the rate
    [- ln decay_rate], for both settings of [staircase]. *)
Theorem exponential_is_natural_exp p sc learning_rate g lr s n r
    (staircase : bool) :
  top_level p -> known p g -> known_obj p learning_rate ->
  sc g = Some (TFloat s) ->
  value_of (start sc) learning_rate = Some lr ->
  0 < r ->
  returns (exponential_decay learning_rate (PyVariable g) (PyNum n) (PyNum r)
                             staircase) p sc
  = returns (natural_exp_decay learning_rate (PyVariable g) (PyNum n)
                               (PyNum (- ln r)) staircase) p sc.
Proof.
  intros Htop Hg Hlr Hs Hv Hr.
  destruct (exponent_decay_returns p sc learning_rate g lr s n r staircase
              Htop Hg Hlr Hs Hv) as (He & _ & _).
  destruct (exponent_decay_returns p sc learning_rate g lr s n (- ln r)
              staircase Htop Hg Hlr Hs Hv) as (_ & Hn & _).
  rewrite He, Hn. unfold pow_kernel, real_pow, Rpower.
  do 3 f_equal. ring.
Qed.

Lemma exponential_is_natural_exp_witness :
  returns (exponential_decay (PyNum 1) (PyVariable (Named "global_step"))
                             (PyNum 10) (PyNum (1 / 2)) false)
          empty_program (scope_at (Named "global_step") 7)
  = returns (natural_exp_decay (PyNum 1) (PyVariable (Named "global_step"))
                               (PyNum 10) (PyNum (- ln (1 / 2))) false)
            empty_program (scope_at (Named "global_step") 7).
Proof.
  apply (exponential_is_natural_exp empty_program
           (scope_at (Named "global_step") 7) (PyNum 1)
           (Named "global_step") 1 7 10 (1 / 2) false
           (conj eq_refl eq_refl) I I eq_refl eq_refl).
  lra.
Defined.

Lemma staircase_constant_on_period_witness :
  returns (inverse_time_decay (PyNum 1) (PyVariable (Named "global_step"))
                              (PyNum 10) (PyNum (1 / 2)) true)
          empty_program (scope_at (Named "global_step") 25)
  = Some (1 / (1 + 1 / 2 * 2)).
Proof.
  apply (staircase_constant_on_period empty_program
           (scope_at (Named "global_step") 25) (PyNum 1)
           (Named "global_step") 1 25 10 (1 / 2) 2
           (conj eq_refl eq_refl) I I eq_refl eq_refl); lra.
Defined.

Lemma inverse_time_decay_monotone_witness :
  exists v1 v2,
    returns (inverse_time_decay (PyNum 1) (PyVariable (Named "global_step"))
                                (PyNum 10) (PyNum (1 / 2)) false)
            empty_program (scope_at (Named "global_step") 5) = Some v1 /\
    returns (inverse_time_decay (PyNum 1) (PyVariable (Named "global_step"))
                                (PyNum 10) (PyNum (1 / 2)) false)
            empty_program (scope_at (Named "global_step") 7) = Some v2 /\
    0 <= v2 <= v1 /\ v1 <= 1.
Proof.
  apply (inverse_time_decay_monotone empty_program
           (scope_at (Named "global_step") 5)
           (scope_at (Named "global_step") 7) (PyNum 1)
           (Named "global_step") 1 5 7 10 (1 / 2) false
           (conj eq_refl eq_refl) I I eq_refl eq_refl eq_refl eq_refl); lra.
Defined.

Lemma natural_exp_decay_monotone_witness :
  exists v1 v2,
    returns (natural_exp_decay (PyNum 1) (PyVariable (Named "global_step"))
                               (PyNum 10) (PyNum (1 / 2)) true)
            empty_program (scope_at (Named "global_step") 5) = Some v1 /\
    returns (natural_exp_decay (PyNum 1) (PyVariable (Named "global_step"))
                               (PyNum 10) (PyNum (1 / 2)) true)
            empty_program (scope_at (Named "global_step") 27) = Some v2 /\
    0 <= v2 <= v1 /\ v1 <= 1.
Proof.
  apply (natural_exp_decay_monotone empty_program
           (scope_at (Named "global_step") 5)
           (scope_at (Named "global_step") 27) (PyNum 1)
           (Named "global_step") 1 5 27 10 (1 / 2) true
           (conj eq_refl eq_refl) I I eq_refl eq_refl eq_refl eq_refl); lra.
Defined.

Lemma polynomial_decay_endpoints_witness :
  returns (polynomial_decay (PyNum 1) (PyVariable (Named "global_step"))
                            (PyNum 10) (PyNum (1 / 10)) (PyNum 2) false)
          empty_program (scope_at (Named "global_step") 25)
  = Some ((1 - 1 / 10) * real_pow 0 2 + 1 / 10).
Proof.
  destruct (polynomial_decay_endpoints empty_program
              (scope_at (Named "global_step") 25) (PyNum 1)
              (Named "global_step") 1 25 10 (1 / 10) 2
              (conj eq_refl eq_refl) I I eq_refl eq_refl) as (_ & Hend & _).
  - lra.
  - apply Hend. lra.
Defined.

Lemma polynomial_decay_base_in_unit_interval_witness :
  exists base,
    0 <= base <= 1 /\
    returns (polynomial_decay (PyNum 1) (PyVariable (Named "global_step"))
                              (PyNum 10) (PyNum (1 / 10)) (PyNum 2) true)
            empty_program (scope_at (Named "global_step") 25)
    = Some ((1 - 1 / 10) * real_pow base 2 + 1 / 10).
Proof.
  apply (polynomial_decay_base_in_unit_interval empty_program
           (scope_at (Named "global_step") 25) (PyNum 1)
           (Named "global_step") 1 25 10 (1 / 10) 2 true
           (conj eq_refl eq_refl) I I eq_refl eq_refl); lra.
Defined.

Lemma polynomial_decay_cycle_horizon_witness :
  returns (polynomial_decay (PyNum 1) (PyVariable (Named "global_step"))
                            (PyNum 10) (PyNum (1 / 10)) (PyNum 2) true)
          empty_program (scope_at (Named "global_step") 25)
  = Some ((1 - 1 / 10) * real_pow (1 - 25 / (10 * 3)) 2 + 1 / 10).
Proof.
  apply (polynomial_decay_cycle_horizon empty_program
           (scope_at (Named "global_step") 25) (PyNum 1)
           (Named "global_step") 1 25 10 (1 / 10) 2 3
           (conj eq_refl eq_refl) I I eq_refl eq_refl); [lra | lia | lra].
Defined.

Lemma polynomial_decay_linear_witness :
  returns (polynomial_decay (PyNum 1) (PyVariable (Named "global_step"))
                            (PyNum 10) (PyNum (1 / 10)) (PyNum 1) false)
          empty_program (scope_at (Named "global_step") 5)
  = Some (1 + (1 / 10 - 1) * (5 / 10)).
Proof.
  apply (polynomial_decay_linear empty_program
           (scope_at (Named "global_step") 5) (PyNum 1)
           (Named "global_step") 1 5 10 (1 / 10)
           (conj eq_refl eq_refl) I I eq_refl eq_refl).
  - intros b Hb. apply Rpower_1. exact Hb.
  - lra.
Defined.

Lemma piecewise_decay_first_match_witness :
  returns (piecewise_decay (PyVariable (Named "global_step")) [20; 10; 30]
                           [1; 2; 3; 4])
          empty_program (scope_at (Named "global_step") 25)
  = Some 3.
Proof.
  apply (piecewise_decay_first_match empty_program
           (scope_at (Named "global_step") 25) (Named "global_step") 25
           [20; 10; 30] [1; 2; 3; 4] 2
           (conj eq_refl eq_refl) I eq_refl eq_refl).
  - cbn [List.length]. lia.
  - intros j Hj. destruct j as [|[|j]]; cbn [nth]; [lra | lra | lia].
  - intros _. cbn [nth]. lra.
Defined.

Lemma piecewise_decay_descending_witness :
  returns (piecewise_decay (PyVariable (Named "global_step")) [20; 10]
                           [1; 2; 3])
          empty_program (scope_at (Named "global_step") 15)
  = Some (if Rlt_dec 15 20 then 1 else 3).
Proof.
  apply (piecewise_decay_descending empty_program
           (scope_at (Named "global_step") 15) (Named "global_step") 15
           [20; 10] [1; 2; 3]
           (conj eq_refl eq_refl) I eq_refl eq_refl).
  - cbn [List.length]. lia.
  - intros i Hi. cbn [List.length] in Hi.
    destruct i as [|[|i]]; cbn [nth]; [lra | lra | lia].
Defined.

Lemma piecewise_decay_step_after_run_witness :
  exists m,
    run (piecewise_decay (PyVariable (Named "learning_rate")) [10] [1; 0.5])
        empty_program (scope_at (Named "learning_rate") 5)
    = Some (PyVariable (Named "learning_rate"), m) /\
    (Named "learning_rate" <> Named "learning_rate" ->
     vars m (Named "learning_rate") = Some (TFloat 5)) /\
    (Named "learning_rate" = Named "learning_rate" ->
     vars m (Named "learning_rate")
     = Some (TFloat (Formula.piecewise 5 [10] [1; 0.5]))).
Proof.
  apply (piecewise_decay_step_after_run empty_program
           (scope_at (Named "learning_rate") 5) (Named "learning_rate") 5
           [10] [1; 0.5] (conj eq_refl eq_refl) I eq_refl eq_refl).
Defined.

Lemma decay_constants_on_cpu_witness :
  exists out p',
    piecewise_decay (PyVariable (Named "global_step")) [10] [1; 0.5]
                    empty_program = Ok out p' /\
    GraphShape.constants_on_cpu (emitted empty_program p') = true.
Proof.
  pose proof (piecewise_decay_builds (Named "global_step") [10] [1; 0.5]
                [] 0 [] false eq_refl) as E.
  cbv zeta in E. do 2 eexists. split; [exact E|].
  match type of E with
  | _ = Ok ?o ?q =>
      destruct (decay_constants_on_cpu
                  (PyNum 1) (PyVariable (Named "global_step"))
                  (PyNum 10) (PyNum (1 / 2)) (PyNum 0) (PyNum 2) false false
                  [10] [1; 0.5] empty_program o q (conj eq_refl eq_refl))
        as (_ & _ & _ & _ & H);
      exact (H E)
  end.
Defined.

Lemma exponential_decay_of_schedule_witness :
  returns (bind (piecewise_decay (PyVariable (Named "global_step")) [10]
                                 [1; 0.5])
                (fun rate =>
                   exponential_decay rate (PyVariable (Named "global_step"))
                                     (PyNum 10) (PyNum (1 / 2)) false))
          empty_program (scope_at (Named "global_step") 5)
  = Some (1 * real_pow (1 / 2) (5 / 10)).
Proof.
  apply (exponential_decay_of_schedule
           (piecewise_decay (PyVariable (Named "global_step")) [10] [1; 0.5])
           [Named "learning_rate"] empty_program
           (scope_at (Named "global_step") 5) "global_step" 5 10 (1 / 2) 1).
  - apply piecewise_decay_frame.
  - intros k [H|[]]. discriminate H.
  - intros [H|[]]. discriminate H.
  - split; reflexivity.
  - reflexivity.
  - rewrite (piecewise_decay_returns empty_program
               (scope_at (Named "global_step") 5) (Named "global_step") 5
               [10] [1; 0.5] (conj eq_refl eq_refl) I eq_refl eq_refl).
    rewrite piecewise_at_5. reflexivity.
Defined.

End ScheduleInstances.
